(** * apply.py: the B12 application submission client

    A shallow embedding of [src/apply.py] and the properties of its
    observable behaviour: configuration resolution, canonical JSON
    serialisation of the payload, the HMAC-SHA256 signature, the single
    HTTP POST and the handling of the response.

    Python [str] values are lists of Unicode code points, [bytes] values are
    lists of octets, both carried by [Z].  The process environment is a
    finite map.  The script threads two output streams and two kinds of
    abrupt termination ([sys.exit] and exceptions) through its calls; the
    embedding does the same with a small state-and-exception monad.

    Boundaries of the model.  The clock, the environment and the network are
    inputs of a run.  The standard output is a text stream that encodes
    what it is given as UTF-8 and refuses what UTF-8 cannot encode, as the
    interpreter sets it up in a UTF-8 locale; the error stream escapes such
    characters instead, so that writing to it does not fail.  Interpreter
    resource limits (recursion depth, memory, the optional limit on the
    number of digits of an integer literal) are not modelled. *)

From Stdlib Require Import ZArith List String Ascii Bool Lia.
From stdpp Require Import gmap strings list.

Local Open Scope Z_scope.

(** ** Python strings and bytes *)

Definition pystr := list Z.
Definition bytes := list Z.

(** A source-code string literal (ASCII) as a Python [str]. *)
Definition lit (s : string) : pystr :=
  map (fun a => Z.of_N (N_of_ascii a)) (list_ascii_of_string s).

Definition str_eqb (a b : pystr) : bool := bool_decide (a = b).

(** [str.isspace] for one character: the characters of bidirectional type
    WS, B or S, or of category Zs. *)
Definition py_isspace (c : Z) : bool :=
  ((9 <=? c) && (c <=? 13)) || ((28 <=? c) && (c <=? 32))
  || (c =? 0x85) || (c =? 0xA0) || (c =? 0x1680)
  || ((0x2000 <=? c) && (c <=? 0x200A))
  || (c =? 0x2028) || (c =? 0x2029) || (c =? 0x202F)
  || (c =? 0x205F) || (c =? 0x3000).

Fixpoint lstrip_by (p : Z -> bool) (s : pystr) : pystr :=
  match s with
  | [] => []
  | c :: t => if p c then lstrip_by p t else s
  end.

Definition rstrip_by (p : Z -> bool) (s : pystr) : pystr :=
  fold_right (fun c acc =>
                match acc with
                | [] => if p c then [] else [c]
                | _ => c :: acc
                end) [] s.

(** [s.strip()] *)
Definition strip (s : pystr) : pystr := rstrip_by py_isspace (lstrip_by py_isspace s).

(** [s.rstrip(chars)] *)
Definition rstrip (chars : pystr) (s : pystr) : pystr :=
  rstrip_by (fun c => bool_decide (c ∈ chars)) s.

(** Truth value of a [str]: non-empty. *)
Definition str_truthy (s : pystr) : bool :=
  match s with [] => false | _ => true end.

Fixpoint is_prefix (p s : pystr) : bool :=
  match p, s with
  | [], _ => true
  | _ :: _, [] => false
  | a :: p', b :: s' => (a =? b) && is_prefix p' s'
  end.

(** [old in s] *)
Fixpoint contains (old s : pystr) : bool :=
  is_prefix old s || match s with [] => false | _ :: t => contains old t end.

(** [s.replace(old, new)] for a non-empty [old]: occurrences are replaced
    from the left and do not overlap.  [skip] counts the characters of an
    occurrence that is being passed over. *)
Fixpoint replace_from (old new : pystr) (skip : nat) (s : pystr) : pystr :=
  match s with
  | [] => []
  | c :: t =>
      match skip with
      | S k => replace_from old new k t
      | O => if is_prefix old s
             then new ++ replace_from old new (Nat.pred (length old)) t
             else c :: replace_from old new O t
      end
  end.

(** With an empty [old], [new] is inserted before every character and at
    the end. *)
Definition replace (old new s : pystr) : pystr :=
  match old with
  | [] => flat_map (fun c => new ++ [c]) s ++ new
  | _ => replace_from old new O s
  end.

(** Decimal digits of a non-negative integer, most significant first. *)
Fixpoint decimal_aux (fuel : nat) (n : Z) : pystr :=
  match fuel with
  | O => []
  | S f => if n <? 10 then [48 + n] else decimal_aux f (n / 10) ++ [48 + n mod 10]
  end.

Definition decimal (n : Z) : pystr := decimal_aux (S (Z.to_nat (Z.log2 n))) n.

(** [str(n)] for an [int]. *)
Definition str_int (n : Z) : pystr :=
  if n <? 0 then 45 :: decimal (- n) else decimal n.

(** ["%0<w>d" % n] for a non-negative [n]. *)
Definition fmt_0d (w : nat) (n : Z) : pystr :=
  let ds := decimal n in repeat 48 (w - length ds)%nat ++ ds.

(** ** UTF-8 *)

(** The UTF-8 form of one code point; surrogates (and integers that are not
    code points) have none. *)
Definition utf8_encode_char (c : Z) : option bytes :=
  if c <? 0 then None
  else if c <? 0x80 then Some [c]
  else if c <? 0x800 then Some [0xC0 + c / 64; 0x80 + c mod 64]
  else if (0xD800 <=? c) && (c <=? 0xDFFF) then None
  else if c <? 0x10000 then
    Some [0xE0 + c / 4096; 0x80 + (c / 64) mod 64; 0x80 + c mod 64]
  else if c <? 0x110000 then
    Some [0xF0 + c / 262144; 0x80 + (c / 4096) mod 64;
          0x80 + (c / 64) mod 64; 0x80 + c mod 64]
  else None.

(** [s.encode("utf-8")]; [None] stands for [UnicodeEncodeError]. *)
Fixpoint utf8_encode (s : pystr) : option bytes :=
  match s with
  | [] => Some []
  | c :: t =>
      match utf8_encode_char c, utf8_encode t with
      | Some b, Some bs => Some (b ++ bs)
      | _, _ => None
      end
  end.

Inductive errors := Strict | Replace.

Inductive utf8_step :=
| Char (c : Z) (n : nat)   (* a code point, read from [n] bytes *)
| Bad (n : nat).           (* an ill-formed sequence of [n] bytes *)

Definition in_range (lo hi b : Z) : bool := (lo <=? b) && (b <=? hi).
Definition is_cont (b : Z) : bool := in_range 0x80 0xBF b.

(** What the decoder finds at the head of a non-empty input [b :: t]. *)
Definition utf8_decode_step (b : Z) (t : bytes) : utf8_step :=
  if in_range 0 0x7F b then Char b 1
  else if in_range 0xC2 0xDF b then
    match t with
    | b1 :: _ => if is_cont b1 then Char ((b - 0xC0) * 64 + (b1 - 0x80)) 2 else Bad 1
    | [] => Bad 1
    end
  else if in_range 0xE0 0xEF b then
    let lo := if b =? 0xE0 then 0xA0 else 0x80 in
    let hi := if b =? 0xED then 0x9F else 0xBF in
    match t with
    | b1 :: t1 =>
        if in_range lo hi b1 then
          match t1 with
          | b2 :: _ =>
              if is_cont b2
              then Char ((b - 0xE0) * 4096 + (b1 - 0x80) * 64 + (b2 - 0x80)) 3
              else Bad 2
          | [] => Bad 2
          end
        else Bad 1
    | [] => Bad 1
    end
  else if in_range 0xF0 0xF4 b then
    let lo := if b =? 0xF0 then 0x90 else 0x80 in
    let hi := if b =? 0xF4 then 0x8F else 0xBF in
    match t with
    | b1 :: t1 =>
        if in_range lo hi b1 then
          match t1 with
          | b2 :: t2 =>
              if is_cont b2 then
                match t2 with
                | b3 :: _ =>
                    if is_cont b3
                    then Char ((b - 0xF0) * 262144 + (b1 - 0x80) * 4096
                               + (b2 - 0x80) * 64 + (b3 - 0x80)) 4
                    else Bad 3
                | [] => Bad 3
                end
              else Bad 2
          | [] => Bad 2
          end
        else Bad 1
    | [] => Bad 1
    end
  else Bad 1.

(** [b.decode("utf-8", errors=e)]; [None] stands for [UnicodeDecodeError].
    [skip] counts the bytes of the current sequence still to pass over. *)
Fixpoint utf8_decode_from (e : errors) (skip : nat) (s : bytes) : option pystr :=
  match s with
  | [] => Some []
  | b :: t =>
      match skip with
      | S k => utf8_decode_from e k t
      | O =>
          match utf8_decode_step b t with
          | Char c n => cons c <$> utf8_decode_from e (Nat.pred n) t
          | Bad n =>
              match e with
              | Strict => None
              | Replace => cons 0xFFFD <$> utf8_decode_from e (Nat.pred n) t
              end
          end
      end
  end.

Definition utf8_decode (e : errors) (s : bytes) : option pystr := utf8_decode_from e O s.

(** ** SHA-256 and HMAC ([hashlib.sha256], [hmac.new(...).hexdigest()]) *)

Module SHA256.

Definition w32 (x : Z) : Z := Z.land x 0xFFFFFFFF.
Definition add32 (x y : Z) : Z := w32 (x + y).
Definition rotr (n x : Z) : Z := w32 (Z.lor (Z.shiftr x n) (Z.shiftl x (32 - n))).
Definition shr (n x : Z) : Z := Z.shiftr x n.
Definition not32 (x : Z) : Z := Z.lxor x 0xFFFFFFFF.

Definition Ch (x y z : Z) : Z := Z.lxor (Z.land x y) (Z.land (not32 x) z).
Definition Maj (x y z : Z) : Z := Z.lxor (Z.lxor (Z.land x y) (Z.land x z)) (Z.land y z).
Definition Sigma0 (x : Z) : Z := Z.lxor (Z.lxor (rotr 2 x) (rotr 13 x)) (rotr 22 x).
Definition Sigma1 (x : Z) : Z := Z.lxor (Z.lxor (rotr 6 x) (rotr 11 x)) (rotr 25 x).
Definition sigma0 (x : Z) : Z := Z.lxor (Z.lxor (rotr 7 x) (rotr 18 x)) (shr 3 x).
Definition sigma1 (x : Z) : Z := Z.lxor (Z.lxor (rotr 17 x) (rotr 19 x)) (shr 10 x).

(** The round constants and the initial state are the first 32 bits of the
    fractional parts of the cube roots, respectively the square roots, of
    the first primes. *)
Definition primes : list Z :=
  [2; 3; 5; 7; 11; 13; 17; 19; 23; 29; 31; 37; 41; 43; 47; 53; 59; 61; 67; 71; 73; 79;
   83; 89; 97; 101; 103; 107; 109; 113; 127; 131; 137; 139; 149; 151; 157; 163; 167;
   173; 179; 181; 191; 193; 197; 199; 211; 223; 227; 229; 233; 239; 241; 251; 257; 263;
   269; 271; 277; 281; 283; 293; 307; 311].

(** The integer cube root of [n < 2^105], bit by bit. *)
Definition icbrt (n : Z) : Z :=
  fold_left (fun r b => let r' := r + 2 ^ Z.of_nat b in if r' * r' * r' <=? n then r' else r)
            (rev (seq 0 35)) 0.

Definition K : list Z := map (fun p => w32 (icbrt (p * 2 ^ 96))) primes.

Record state := State { ha : Z; hb : Z; hc : Z; hd : Z; he : Z; hf : Z; hg : Z; hh : Z }.

Definition init : state :=
  let h i := w32 (Z.sqrt (nth i primes 0 * 2 ^ 64)) in
  State (h 0%nat) (h 1%nat) (h 2%nat) (h 3%nat) (h 4%nat) (h 5%nat) (h 6%nat) (h 7%nat).

(** Big-endian words of a block. *)
Fixpoint words (s : bytes) : list Z :=
  match s with
  | b0 :: b1 :: b2 :: b3 :: t =>
      (b0 * 16777216 + b1 * 65536 + b2 * 256 + b3) :: words t
  | _ => []
  end.

Definition word_bytes (x : Z) : bytes :=
  [x / 16777216 mod 256; x / 65536 mod 256; x / 256 mod 256; x mod 256].

(** The message schedule, extended by [n] words. *)
Fixpoint schedule (n : nat) (w : list Z) : list Z :=
  match n with
  | O => w
  | S k =>
      let t := length w in
      let at_ i := nth (t - i) w 0 in
      schedule k (w ++ [add32 (add32 (add32 (sigma1 (at_ 2%nat)) (at_ 7%nat))
                                     (sigma0 (at_ 15%nat))) (at_ 16%nat)])
  end.

Definition round (s : state) (kw : Z * Z) : state :=
  let '(k, w) := kw in
  let t1 := add32 (add32 (add32 (add32 (hh s) (Sigma1 (he s))) (Ch (he s) (hf s) (hg s))) k) w in
  let t2 := add32 (Sigma0 (ha s)) (Maj (ha s) (hb s) (hc s)) in
  State (add32 t1 t2) (ha s) (hb s) (hc s) (add32 (hd s) t1) (he s) (hf s) (hg s).

Definition compress (s : state) (block : bytes) : state :=
  let w := schedule 48 (words block) in
  let r := fold_left round (combine K w) s in
  State (add32 (ha s) (ha r)) (add32 (hb s) (hb r)) (add32 (hc s) (hc r))
        (add32 (hd s) (hd r)) (add32 (he s) (he r)) (add32 (hf s) (hf r))
        (add32 (hg s) (hg r)) (add32 (hh s) (hh r)).

Definition pad (msg : bytes) : bytes :=
  let len := Z.of_nat (length msg) in
  let zeros := Z.to_nat ((55 - len) mod 64) in
  let bits := len * 8 in
  msg ++ [0x80] ++ repeat 0 zeros
      ++ word_bytes (bits / 4294967296 mod 4294967296) ++ word_bytes (bits mod 4294967296).

Fixpoint blocks (n : nat) (s : bytes) : list bytes :=
  match n with
  | O => []
  | S k => take 64 s :: blocks k (drop 64 s)
  end.

Definition digest (msg : bytes) : bytes :=
  let p := pad msg in
  let s := fold_left compress (blocks (length p / 64) p) init in
  word_bytes (ha s) ++ word_bytes (hb s) ++ word_bytes (hc s) ++ word_bytes (hd s)
    ++ word_bytes (he s) ++ word_bytes (hf s) ++ word_bytes (hg s) ++ word_bytes (hh s).

End SHA256.

Module HMAC.

Definition block_size : nat := 64.

Definition key_block (key : bytes) : bytes :=
  let k := if (block_size <? length key)%nat then SHA256.digest key else key in
  k ++ repeat 0 (block_size - length k)%nat.

(** [hmac.new(key, msg, hashlib.sha256).digest()] *)
Definition digest (key msg : bytes) : bytes :=
  let k := key_block key in
  let inner := SHA256.digest (map (Z.lxor 0x36) k ++ msg) in
  SHA256.digest (map (Z.lxor 0x5C) k ++ inner).

End HMAC.

Definition hex_digit (n : Z) : Z := if n <? 10 then 48 + n else 87 + n.

(** [bytes.hex()] *)
Definition hex (bs : bytes) : pystr :=
  flat_map (fun b => [hex_digit (b / 16); hex_digit (b mod 16)]) bs.

(** ASCII text as bytes, for examples. *)
Definition ascii_bytes (s : string) : bytes := lit s.

(** ** Python objects that [json.loads] produces *)

(** A [float] is kept as the source text determines it: the double nearest
    to [(-1)^neg * m * 10^e], or one of the special values. *)
Inductive pyfloat :=
| FNaN
| FInf (neg : bool)
| FDec (neg : bool) (m : Z) (e : Z).

#[warnings="-register-all"]
Inductive value :=
| VNone
| VBool (b : bool)
| VInt (n : Z)
| VFloat (f : pyfloat)
| VStr (s : pystr)
| VList (l : list value)
| VDict (d : list (pystr * value)).

(** A decimal rounds to zero when its magnitude is at most [2^-1075], half
    of the least positive double. *)
Definition float_is_zero (f : pyfloat) : bool :=
  match f with
  | FNaN | FInf _ => false
  | FDec _ m e => (m =? 0) || ((e <? 0) && (m * 2 ^ 1075 <=? 10 ^ (- e)))
  end.

(** [bool(v)] *)
Definition truthy (v : value) : bool :=
  match v with
  | VNone => false
  | VBool b => b
  | VInt n => negb (n =? 0)
  | VFloat f => negb (float_is_zero f)
  | VStr s => str_truthy s
  | VList l => match l with [] => false | _ => true end
  | VDict d => match d with [] => false | _ => true end
  end.

(** [str(v)], where the model has it: the [repr] of floats and of
    containers is not modelled. *)
Definition py_str (v : value) : option pystr :=
  match v with
  | VNone => Some (lit "None")
  | VBool true => Some (lit "True")
  | VBool false => Some (lit "False")
  | VInt n => Some (str_int n)
  | VStr s => Some s
  | VFloat _ | VList _ | VDict _ => None
  end.

(** ** Dictionaries: insertion-ordered, keys unique *)

Section Dict.
Context {A : Type}.

Fixpoint dict_get (d : list (pystr * A)) (k : pystr) : option A :=
  match d with
  | [] => None
  | (k', v) :: t => if str_eqb k' k then Some v else dict_get t k
  end.

Fixpoint dict_set (d : list (pystr * A)) (k : pystr) (v : A) : list (pystr * A) :=
  match d with
  | [] => [(k, v)]
  | (k', v') :: t => if str_eqb k' k then (k', v) :: t else (k', v') :: dict_set t k v
  end.

(** [dict(pairs)] and the evaluation of a dict display. *)
Definition dict_of_pairs (ps : list (pystr * A)) : list (pystr * A) :=
  fold_left (fun d kv => dict_set d (fst kv) (snd kv)) ps [].
End Dict.

(** ** [json.loads] *)

Inductive parsed (A : Type) :=
| Ok (a : A) (rest : pystr)
| Invalid
| NoFuel.
Arguments Ok {A} a rest.
Arguments Invalid {A}.
Arguments NoFuel {A}.

Definition is_json_ws (c : Z) : bool := (c =? 32) || (c =? 9) || (c =? 10) || (c =? 13).
Definition skip_ws (s : pystr) : pystr := lstrip_by is_json_ws s.
Definition is_digit (c : Z) : bool := in_range 48 57 c.

Fixpoint span_digits (s : pystr) : pystr * pystr :=
  match s with
  | [] => ([], [])
  | c :: t => if is_digit c then (c :: fst (span_digits t), snd (span_digits t)) else ([], s)
  end.

Definition digits_value (ds : pystr) : Z :=
  fold_left (fun acc c => acc * 10 + (c - 48)) ds 0.

(** The fraction at the head of [s], a point and at least one digit, if
    there is one. *)
Definition match_frac (s : pystr) : pystr * pystr :=
  match s with
  | c :: t =>
      if c =? 46 then
        match span_digits t with
        | ([], _) => ([], s)
        | (ds, r) => (ds, r)
        end
      else ([], s)
  | [] => ([], s)
  end.

(** The exponent at the head of [s], the letter e, an optional sign and
    at least one digit, if there is one. *)
Definition match_exp (s : pystr) : option Z * pystr :=
  match s with
  | c :: t =>
      if (c =? 101) || (c =? 69) then
        let '(neg, t1) :=
          match t with
          | sg :: t' => if sg =? 45 then (true, t') else if sg =? 43 then (false, t') else (false, t)
          | [] => (false, t)
          end in
        match span_digits t1 with
        | ([], _) => (None, s)
        | (ds, r) => (Some (if neg then - digits_value ds else digits_value ds), r)
        end
      else (None, s)
  | [] => (None, s)
  end.

(** The number at the head of [s]: an optional minus sign, then a zero or
    a run of digits that does not begin with zero, then an optional fraction
    and an optional exponent.  It is an [int] without fraction and exponent,
    a [float] otherwise. *)
Definition match_number (s : pystr) : option (value * pystr) :=
  let '(neg, s1) :=
    match s with
    | c :: t => if c =? 45 then (true, t) else (false, s)
    | [] => (false, s)
    end in
  match s1 with
  | [] => None
  | c :: t =>
      let int_part :=
        if c =? 48 then Some ([c], t)
        else if in_range 49 57 c then Some (c :: fst (span_digits t), snd (span_digits t))
        else None in
      match int_part with
      | None => None
      | Some (ip, r1) =>
          let '(frac, r2) := match_frac r1 in
          let '(ex, r3) := match_exp r2 in
          match frac, ex with
          | [], None =>
              Some (VInt (if neg then - digits_value ip else digits_value ip), r3)
          | _, _ =>
              Some (VFloat (FDec neg (digits_value (ip ++ frac))
                                 (default 0 ex - Z.of_nat (length frac))), r3)
          end
      end
  end.

Definition hex_val (c : Z) : option Z :=
  if in_range 48 57 c then Some (c - 48)
  else if in_range 97 102 c then Some (c - 87)
  else if in_range 65 70 c then Some (c - 55)
  else None.

Definition hex4 (s : pystr) : option Z :=
  match s with
  | a :: b :: c :: d :: _ =>
      match hex_val a, hex_val b, hex_val c, hex_val d with
      | Some a, Some b, Some c, Some d => Some (((a * 16 + b) * 16 + c) * 16 + d)
      | _, _, _, _ => None
      end
  | _ => None
  end.

(** The character an escape letter stands for. *)
Definition simple_escape (e : Z) : option Z :=
  if e =? 34 then Some 34          (* quote *)
  else if e =? 92 then Some 92     (* backslash *)
  else if e =? 47 then Some 47     (* slash *)
  else if e =? 98 then Some 8      (* b *)
  else if e =? 102 then Some 12    (* f *)
  else if e =? 110 then Some 10    (* n *)
  else if e =? 114 then Some 13    (* r *)
  else if e =? 116 then Some 9     (* t *)
  else None.

(** The low surrogate escape that completes a pair begun by [u]. *)
Definition low_surrogate_after (u : Z) (s : pystr) : option Z :=
  if in_range 0xD800 0xDBFF u then
    match s with
    | b :: c :: t =>
        if (b =? 92) && (c =? 117) then
          match hex4 t with
          | Some u2 => if in_range 0xDC00 0xDFFF u2 then Some u2 else None
          | None => None
          end
        else None
    | _ => None
    end
  else None.

(** A string body, read from just after its opening quote, in strict mode:
    the content and the input after the closing quote. *)
Fixpoint scan_string (skip : nat) (s : pystr) : option (pystr * pystr) :=
  match s with
  | [] => None
  | c :: t =>
      match skip with
      | S k => scan_string k t
      | O =>
          if c =? 34 then Some ([], t)
          else if c =? 92 then
            match t with
            | [] => None
            | e :: t' =>
                if e =? 117 then
                  match hex4 t' with
                  | None => None
                  | Some u =>
                      match low_surrogate_after u (drop 4 t') with
                      | Some u2 =>
                          prod_map (cons (0x10000 + (u - 0xD800) * 1024 + (u2 - 0xDC00))) id
                            <$> scan_string 11 t
                      | None => prod_map (cons u) id <$> scan_string 5 t
                      end
                  end
                else
                  match simple_escape e with
                  | Some ch => prod_map (cons ch) id <$> scan_string 1 t
                  | None => None
                  end
            end
          else if c <? 32 then None
          else prod_map (cons c) id <$> scan_string 0 t
      end
  end.

Definition parsed_bind {A B} (p : parsed A) (k : A -> pystr -> parsed B) : parsed B :=
  match p with
  | Ok a r => k a r
  | Invalid => Invalid
  | NoFuel => NoFuel
  end.

(** The value at the head of [s] ([scan_once]); the elements of an array
    after its bracket; the members of an object after its brace. *)
Fixpoint parse_value (fuel : nat) (s : pystr) {struct fuel} : parsed value :=
  match fuel with
  | O => NoFuel
  | S f =>
      match s with
      | [] => Invalid
      | c :: t =>
          if c =? 34 then
            match scan_string O t with
            | Some (str, r) => Ok (VStr str) r
            | None => Invalid
            end
          else if c =? 123 then
            match skip_ws t with
            | c1 :: r1 =>
                if c1 =? 125 then Ok (VDict []) r1
                else parsed_bind (parse_members f (c1 :: r1))
                                 (fun ps r => Ok (VDict (dict_of_pairs ps)) r)
            | [] => Invalid
            end
          else if c =? 91 then
            match skip_ws t with
            | c1 :: r1 =>
                if c1 =? 93 then Ok (VList []) r1
                else parsed_bind (parse_elems f (c1 :: r1)) (fun vs r => Ok (VList vs) r)
            | [] => Invalid
            end
          else if is_prefix (lit "null") s then Ok VNone (drop 4 s)
          else if is_prefix (lit "true") s then Ok (VBool true) (drop 4 s)
          else if is_prefix (lit "false") s then Ok (VBool false) (drop 5 s)
          else
            match match_number s with
            | Some (v, r) => Ok v r
            | None =>
                if is_prefix (lit "NaN") s then Ok (VFloat FNaN) (drop 3 s)
                else if is_prefix (lit "Infinity") s then Ok (VFloat (FInf false)) (drop 8 s)
                else if is_prefix (lit "-Infinity") s then Ok (VFloat (FInf true)) (drop 9 s)
                else Invalid
            end
      end
  end
with parse_elems (fuel : nat) (s : pystr) {struct fuel} : parsed (list value) :=
  match fuel with
  | O => NoFuel
  | S f =>
      parsed_bind (parse_value f s) (fun v r =>
        match skip_ws r with
        | c :: r' =>
            if c =? 93 then Ok [v] r'
            else if c =? 44 then
              parsed_bind (parse_elems f (skip_ws r')) (fun vs r'' => Ok (v :: vs) r'')
            else Invalid
        | [] => Invalid
        end)
  end
with parse_members (fuel : nat) (s : pystr) {struct fuel} : parsed (list (pystr * value)) :=
  match fuel with
  | O => NoFuel
  | S f =>
      match s with
      | c :: t =>
          if c =? 34 then
            match scan_string O t with
            | None => Invalid
            | Some (key, r) =>
                match skip_ws r with
                | c1 :: r1 =>
                    if c1 =? 58 then
                      parsed_bind (parse_value f (skip_ws r1)) (fun v r2 =>
                        match skip_ws r2 with
                        | c2 :: r3 =>
                            if c2 =? 125 then Ok [(key, v)] r3
                            else if c2 =? 44 then
                              parsed_bind (parse_members f (skip_ws r3))
                                          (fun ps r4 => Ok ((key, v) :: ps) r4)
                            else Invalid
                        | [] => Invalid
                        end)
                    else Invalid
                | [] => Invalid
                end
            end
          else Invalid
      | [] => Invalid
      end
  end.

Inductive loaded :=
| Loaded (v : value)
| DecodeError       (* [json.JSONDecodeError] *)
| Exhausted.        (* the parser ran out of fuel *)

(** [json.loads(s)] for a [str]. *)
Definition json_loads (s : pystr) : loaded :=
  match s with
  | 0xFEFF :: _ => DecodeError
  | _ =>
      match parse_value (2 * length s + 1) (skip_ws s) with
      | Ok v r => match skip_ws r with [] => Loaded v | _ => DecodeError end
      | Invalid => DecodeError
      | NoFuel => Exhausted
      end
  end.

(** Text in which the apostrophe stands for the double quote. *)
Definition qlit (s : string) : pystr :=
  map (fun c => if c =? 39 then 34 else c) (lit s).

(** ** [json.dumps] of a dictionary of strings *)

Definition hex4_lower (c : Z) : pystr :=
  [hex_digit (c / 4096 mod 16); hex_digit (c / 256 mod 16);
   hex_digit (c / 16 mod 16); hex_digit (c mod 16)].

Definition u_escape (c : Z) : pystr := lit "\u" ++ hex4_lower c.

(** The replacement of one character inside a JSON string.  Without
    [ensure_ascii] only the quote, the backslash and the control characters
    are replaced; with it, every character outside the printable ASCII
    range is, those beyond the basic plane as a surrogate pair. *)
Definition escape_char (ensure_ascii : bool) (c : Z) : pystr :=
  if c =? 34 then [92; 34]
  else if c =? 92 then [92; 92]
  else if c =? 10 then lit "\n"
  else if c =? 13 then lit "\r"
  else if c =? 9 then lit "\t"
  else if c =? 8 then lit "\b"
  else if c =? 12 then lit "\f"
  else if c <? 32 then u_escape c
  else if ensure_ascii && (126 <? c) then
    if c <? 0x10000 then u_escape c
    else u_escape (0xD800 + (c - 0x10000) / 1024) ++ u_escape (0xDC00 + (c - 0x10000) mod 1024)
  else [c].

Definition encode_basestring (ensure_ascii : bool) (s : pystr) : pystr :=
  [34] ++ flat_map (escape_char ensure_ascii) s ++ [34].

(** [a < b] on [str]: lexicographic on code points. *)
Fixpoint str_ltb (a b : pystr) : bool :=
  match a, b with
  | _, [] => false
  | [], _ :: _ => true
  | x :: a', y :: b' => (x <? y) || ((x =? y) && str_ltb a' b')
  end.

Section Sorted_items.
Context {A : Type}.

Fixpoint insert_item (kv : pystr * A) (l : list (pystr * A)) : list (pystr * A) :=
  match l with
  | [] => [kv]
  | kv' :: t => if str_ltb (fst kv) (fst kv') then kv :: l else kv' :: insert_item kv t
  end.

(** [sorted(d.items())]; the keys of a dictionary are distinct, so the
    values are never compared. *)
Definition sorted_items (d : list (pystr * A)) : list (pystr * A) :=
  fold_right insert_item [] d.
End Sorted_items.

(** [sep.join(parts)] *)
Fixpoint join (sep : pystr) (parts : list pystr) : pystr :=
  match parts with
  | [] => []
  | [p] => p
  | p :: ps => p ++ sep ++ join sep ps
  end.

(** [json.dumps(d, separators=(item_sep, key_sep), sort_keys=..., ensure_ascii=...)]
    for a [dict] from [str] to [str]. *)
Definition json_dumps (item_sep key_sep : pystr) (sort_keys ensure_ascii : bool)
    (d : list (pystr * pystr)) : pystr :=
  let items := if sort_keys then sorted_items d else d in
  lit "{"
    ++ join item_sep
         (map (fun kv => encode_basestring ensure_ascii (fst kv) ++ key_sep
                           ++ encode_basestring ensure_ascii (snd kv)) items)
    ++ lit "}".

(** ** [datetime] *)

Record datetime := DateTime {
  year : Z; month : Z; day : Z;
  hour : Z; minute : Z; second : Z; microsecond : Z
}.

(** The invariant of the [datetime] class. *)
Definition datetime_valid (d : datetime) : Prop :=
  1 <= year d <= 9999 /\ 1 <= month d <= 12 /\ 1 <= day d <= 31
  /\ 0 <= hour d <= 23 /\ 0 <= minute d <= 59 /\ 0 <= second d <= 59
  /\ 0 <= microsecond d <= 999999.

(** [d.isoformat(timespec="milliseconds")]: the date and the time of day,
    the microseconds cut down to milliseconds. *)
Definition isoformat_ms (d : datetime) : pystr :=
  fmt_0d 4 (year d) ++ lit "-" ++ fmt_0d 2 (month d) ++ lit "-" ++ fmt_0d 2 (day d)
    ++ lit "T" ++ fmt_0d 2 (hour d) ++ lit ":" ++ fmt_0d 2 (minute d) ++ lit ":"
    ++ fmt_0d 2 (second d) ++ lit "." ++ fmt_0d 3 (microsecond d / 1000).

(** The same for an aware [d] in [timezone.utc]: the offset follows. *)
Definition isoformat_ms_utc (d : datetime) : pystr :=
  isoformat_ms d ++ lit "+00:00".

(** ** The world of a run, and the effects of the script *)

Record request := Request {
  req_url : pystr;
  req_data : bytes;
  req_method : pystr;
  req_headers : list (pystr * pystr);
  req_timeout : Z
}.

(** What the network does with a request: the response that [urllib] ends
    with (the last one, when it has followed redirections on its own), or
    a failure to get one (no connection, timeout, ...), described by the
    text of its exception. *)
Inductive net_result :=
| Responded (status : Z) (body : bytes)
| Failed (detail : pystr).

Record world := World {
  environ : gmap string pystr;        (* [os.environ] *)
  utcnow : datetime;                  (* [datetime.now(timezone.utc)] *)
  server : request -> net_result
}.

Inductive exn :=
| HTTPError (code : Z) (body : bytes)
| RequestError (detail : pystr)
| UnicodeDecodeError
| UnicodeEncodeError
| JSONDecodeError
| RecursionError
| AttributeError.

(** A line on the error stream. *)
Inductive errline :=
| Line (s : pystr)                 (* [print(s, file=sys.stderr)] *)
| LineExc (s : pystr) (e : exn)    (* the same for [s] followed by [str(e)] *)
| Traceback (e : exn).             (* report of an uncaught exception *)

Record streams := Streams {
  stdout : list value;       (* the objects written by [print], in order *)
  stderr : list errline;
  posted : list request      (* the requests handed to [urlopen] *)
}.

Inductive ctl (A : Type) :=
| Normal (a : A)
| SystemExit (code : Z)
| Raise (e : exn).
Arguments Normal {A} a.
Arguments SystemExit {A} code.
Arguments Raise {A} e.

Definition py (A : Type) : Type := streams -> streams * ctl A.

#[global] Instance py_ret : MRet py := fun A a s => (s, Normal a).
#[global] Instance py_bind : MBind py := fun A B k m s =>
  match m s with
  | (s', Normal a) => k a s'
  | (s', SystemExit c) => (s', SystemExit c)
  | (s', Raise e) => (s', Raise e)
  end.

Definition sys_exit {A} (code : Z) : py A := fun s => (s, SystemExit code).
Definition raise {A} (e : exn) : py A := fun s => (s, Raise e).

(** What the standard output can write.  [print(v)] hands [str(v)] to the
    stream, which encodes it before anything is written.  A [str] is its
    own text: it is refused when it holds a surrogate code point.  The text
    of any other object is ASCII but for the [repr] of the strings inside
    it, and [repr] escapes surrogates as it does every character that is
    not printable. *)
Definition writable (v : value) : bool :=
  match v with
  | VStr s => match utf8_encode s with Some _ => true | None => false end
  | _ => true
  end.

(** [print(v)]: the object is written, or nothing is and the stream raises. *)
Definition print (v : value) : py unit := fun s =>
  if writable v then (Streams (stdout s ++ [v]) (stderr s) (posted s), Normal tt)
  else (s, Raise UnicodeEncodeError).
Definition eprint (l : errline) : py unit := fun s =>
  (Streams (stdout s) (stderr s ++ [l]) (posted s), Normal tt).

(** [try: m except Exception as e: h e]; [SystemExit] is not an
    [Exception] and passes through. *)
Definition try_except {A} (m : py A) (h : exn -> py A) : py A := fun s =>
  match m s with
  | (s', Raise e) => h e s'
  | r => r
  end.

(** [os.getenv(name, default)] *)
Definition getenv (w : world) (name : string) (dflt : pystr) : pystr :=
  default dflt (environ w !! name).

(** [urllib.request.urlopen(req, timeout=...)]: a response with a status
    outside 200..299 is raised as [HTTPError]. *)
Record response := Response { status : Z; content : bytes }.

Definition urlopen (w : world) (req : request) : py response := fun s =>
  let s' := Streams (stdout s) (stderr s) (posted s ++ [req]) in
  match server w req with
  | Responded st body =>
      if (200 <=? st) && (st <? 300) then (s', Normal (Response st body))
      else (s', Raise (HTTPError st body))
  | Failed detail => (s', Raise (RequestError detail))
  end.

Definition encode (s : pystr) : py bytes :=
  match utf8_encode s with
  | Some b => mret b
  | None => raise UnicodeEncodeError
  end.

Definition decode (e : errors) (b : bytes) : py pystr :=
  match utf8_decode e b with
  | Some s => mret s
  | None => raise UnicodeDecodeError
  end.

Definition loads (s : pystr) : py value :=
  match json_loads s with
  | Loaded v => mret v
  | DecodeError => raise JSONDecodeError
  | Exhausted => raise RecursionError
  end.

(** [data.get(key)]: only a [dict] has the method. *)
Definition get_method (data : value) (key : pystr) : py value :=
  match data with
  | VDict d => mret (default VNone (dict_get d key))
  | _ => raise AttributeError
  end.

(** ** The script *)

Definition B12_ENDPOINT : pystr := lit "https://b12.io/apply/submission".
Definition SIGNING_SECRET : pystr := lit "hello-there-from-b12".

Definition iso8601_utc_now_ms (w : world) : pystr :=
  replace (lit "+00:00") (lit "Z") (isoformat_ms_utc (utcnow w)).

Definition required_env (w : world) (name : string) : py pystr :=
  let val := strip (getenv w name (lit "")) in
  if negb (str_truthy val) then
    eprint (Line (lit "Missing required environment variable: " ++ lit name));;
    sys_exit 2
  else mret val.

Definition github_action_run_link (w : world) : py pystr :=
  let server := rstrip (lit "/") (getenv w "GITHUB_SERVER_URL" (lit "https://github.com")) in
  let repo := strip (getenv w "GITHUB_REPOSITORY" (lit "")) in
  let run_id := strip (getenv w "GITHUB_RUN_ID" (lit "")) in
  if str_truthy repo && str_truthy run_id then
    mret (server ++ lit "/" ++ repo ++ lit "/actions/runs/" ++ run_id)
  else required_env w "ACTION_RUN_LINK".

Definition github_repo_link (w : world) : py pystr :=
  let server := rstrip (lit "/") (getenv w "GITHUB_SERVER_URL" (lit "https://github.com")) in
  let repo := strip (getenv w "GITHUB_REPOSITORY" (lit "")) in
  if str_truthy repo then mret (server ++ lit "/" ++ repo)
  else required_env w "REPOSITORY_LINK".

(** [a or b] on strings, [b] being evaluated only when [a] is empty. *)
Definition or_else (a : pystr) (b : py pystr) : py pystr :=
  if str_truthy a then mret a else b.

Definition main (w : world) : py unit :=
  let name := lit "Luciano Almenares" in
  email ← required_env w "B12_EMAIL";
  let resume_link := lit "https://www.linkedin.com/in/luciano-almenares/" in
  repository_link ← or_else (strip (getenv w "B12_REPOSITORY_LINK" (lit ""))) (github_repo_link w);
  action_run_link ← or_else (strip (getenv w "B12_ACTION_RUN_LINK" (lit ""))) (github_action_run_link w);
  let payload := dict_of_pairs
    [ (lit "timestamp", iso8601_utc_now_ms w);
      (lit "name", name);
      (lit "email", email);
      (lit "resume_link", resume_link);
      (lit "repository_link", repository_link);
      (lit "action_run_link", action_run_link) ] in
  let body_str := json_dumps (lit ",") (lit ":") true false payload in
  body_bytes ← encode body_str;
  key ← encode SIGNING_SECRET;
  let digest := hex (HMAC.digest key body_bytes) in
  let signature := lit "sha256=" ++ digest in
  let req := Request B12_ENDPOINT body_bytes (lit "POST")
               [ (lit "Content-Type", lit "application/json");
                 (lit "X-Signature-256", signature) ] 30 in
  resp_body ← try_except
    (resp ← urlopen w req;
     resp_body ← decode Strict (content resp);
     if negb (status resp =? 200) then
       eprint (Line (lit "HTTP " ++ str_int (status resp) ++ lit ": " ++ resp_body));;
       sys_exit 1
     else mret resp_body)
    (fun e =>
       match e with
       | HTTPError code body =>
           err_body ← decode Replace body;
           eprint (Line (lit "HTTPError " ++ str_int code ++ lit ": " ++ err_body));;
           sys_exit 1
       | _ =>
           eprint (LineExc (lit "Request failed: ") e);;
           sys_exit 1
       end);
  data ← try_except (loads resp_body)
    (fun e =>
       match e with
       | JSONDecodeError =>
           eprint (Line (lit "Non-JSON response: " ++ resp_body));;
           sys_exit 1
       | _ => raise e
       end);
  receipt ← get_method data (lit "receipt");
  success ← get_method data (lit "success");
  if negb (truthy success) || negb (truthy receipt) then
    eprint (Line (lit "Unexpected response: " ++ resp_body));;
    sys_exit 1
  else print receipt.

(** The process: the exit status and what the streams received.  An
    uncaught exception is reported on the error stream and gives status 1. *)
Record outcome := Outcome { exit_status : Z; final : streams }.

Definition run (w : world) : outcome :=
  match main w (Streams [] [] []) with
  | (s, Normal _) => Outcome 0 s
  | (s, SystemExit c) => Outcome c s
  | (s, Raise e) => Outcome 1 (Streams (stdout s) (stderr s ++ [Traceback e]) (posted s))
  end.

(** The text a stream shows for the objects printed to it, a line each. *)
Fixpoint stdout_text (vs : list value) : option pystr :=
  match vs with
  | [] => Some []
  | v :: t =>
      match py_str v, stdout_text t with
      | Some s, Some r => Some (s ++ [10] ++ r)
      | _, _ => None
      end
  end.

(** [s] occurs in the text of the line [l]. *)
Definition line_contains (s : pystr) (l : errline) : bool :=
  match l with
  | Line t | LineExc t _ => contains s t
  | Traceback _ => false
  end.

(** ** Views of a run, for the statements *)

(** The result of a computation that ends normally, from empty streams. *)
Definition value_of {A} (m : py A) : option A :=
  match m (Streams [] [] []) with
  | (_, Normal a) => Some a
  | _ => None
  end.

Record config := Config {
  cfg_email : pystr;
  cfg_repository_link : pystr;
  cfg_action_run_link : pystr
}.

(** The three values [main] reads from the environment, when it finds
    them all. *)
Definition resolve (w : world) : option config :=
  email ← value_of (required_env w "B12_EMAIL");
  repository_link ←
    value_of (or_else (strip (getenv w "B12_REPOSITORY_LINK" (lit ""))) (github_repo_link w));
  action_run_link ←
    value_of (or_else (strip (getenv w "B12_ACTION_RUN_LINK" (lit ""))) (github_action_run_link w));
  Some (Config email repository_link action_run_link).

Definition payload_of (w : world) (c : config) : list (pystr * pystr) :=
  dict_of_pairs
    [ (lit "timestamp", iso8601_utc_now_ms w);
      (lit "name", lit "Luciano Almenares");
      (lit "email", cfg_email c);
      (lit "resume_link", lit "https://www.linkedin.com/in/luciano-almenares/");
      (lit "repository_link", cfg_repository_link c);
      (lit "action_run_link", cfg_action_run_link c) ].

Definition body_str_of (w : world) (c : config) : pystr :=
  json_dumps (lit ",") (lit ":") true false (payload_of w c).

Definition secret_key : bytes := ascii_bytes "hello-there-from-b12".

Definition signature_of (body_bytes : bytes) : pystr :=
  lit "sha256=" ++ hex (HMAC.digest secret_key body_bytes).

Definition request_for (body_bytes : bytes) : request :=
  Request B12_ENDPOINT body_bytes (lit "POST")
    [ (lit "Content-Type", lit "application/json");
      (lit "X-Signature-256", signature_of body_bytes) ] 30.

(** The request [main] hands to [urlopen], when it gets that far. *)
Definition request_of (w : world) : option request :=
  c ← resolve w;
  body_bytes ← utf8_encode (body_str_of w c);
  Some (request_for body_bytes).

(** A variable is set and not blank. *)
Definition is_set (w : world) (name : string) : Prop :=
  strip (getenv w name (lit "")) <> [].

(** Code points that are not surrogates: the text that has a UTF-8 form. *)
Definition is_scalar (c : Z) : Prop :=
  0 <= c < 0xD800 \/ 0xDFFF < c < 0x110000.

(** A configuration with which a submission can be built: the address is
    given, each link has one of its three sources, and the environment is
    text. *)
Definition config_valid (w : world) : Prop :=
  is_set w "B12_EMAIL"
  /\ (is_set w "B12_REPOSITORY_LINK" \/ is_set w "GITHUB_REPOSITORY"
      \/ is_set w "REPOSITORY_LINK")
  /\ (is_set w "B12_ACTION_RUN_LINK"
      \/ (is_set w "GITHUB_REPOSITORY" /\ is_set w "GITHUB_RUN_ID")
      \/ is_set w "ACTION_RUN_LINK")
  /\ (forall name v, environ w !! name = Some v -> Forall is_scalar v)
  /\ datetime_valid (utcnow w).

Definition all_digits (s : pystr) : Prop := Forall (fun c => is_digit c = true) s.

(** A character class per position. *)
Fixpoint matches (pattern : list (Z -> bool)) (s : pystr) : bool :=
  match pattern, s with
  | [], [] => true
  | p :: ps, c :: t => p c && matches ps t
  | _, _ => false
  end.

Definition is_char (a : Z) (c : Z) : bool := c =? a.

(** [YYYY-MM-DDTHH:MM:SS.mmmZ] *)
Definition timestamp_pattern : list (Z -> bool) :=
  repeat is_digit 4 ++ [is_char 45] ++ repeat is_digit 2 ++ [is_char 45]
    ++ repeat is_digit 2 ++ [is_char 84] ++ repeat is_digit 2 ++ [is_char 58]
    ++ repeat is_digit 2 ++ [is_char 58] ++ repeat is_digit 2 ++ [is_char 46]
    ++ repeat is_digit 3 ++ [is_char 90].

Definition is_lower_hex (c : Z) : bool := in_range 48 57 c || in_range 97 102 c.

(** An example world: a CI run, an answering endpoint. *)
Definition example_environ : gmap string pystr :=
  <["B12_EMAIL" := lit "me@example.com"]>
    (<["GITHUB_REPOSITORY" := lit "owner/repo"]>
       (<["GITHUB_RUN_ID" := lit "42"]> ∅)).

Definition example_world (r : net_result) : world :=
  World example_environ (DateTime 2026 1 2 3 4 5 678901) (fun _ => r).

Definition add_err (s : streams) (l : errline) : streams :=
  Streams (stdout s) (stderr s ++ [l]) (posted s).

Definition add_post (s : streams) (r : request) : streams :=
  Streams (stdout s) (stderr s) (posted s ++ [r]).

Definition missing (name : string) : errline :=
  Line (lit "Missing required environment variable: " ++ lit name).

(** A step of the configuration either yields a value, or reports the
    variable it misses and leaves with status 2; in both cases whatever
    the streams hold. *)
Inductive config_step (m : py pystr) : Prop :=
| Found (v : pystr) :
    v <> [] -> (forall s, m s = (s, Normal v)) -> config_step m
| Missing (name : string) :
    (forall s, m s = (add_err s (missing name), SystemExit 2)) -> config_step m.

(** [d.get(key)] *)
Definition field (d : list (pystr * value)) (key : string) : value :=
  default VNone (dict_get d (lit key)).

(** The paths of a run: what the script does, case by case, as a relation
    between the world and the outcome of the process. *)
Inductive path (w : world) : outcome -> Prop :=
| Path_missing name :
    resolve w = None ->
    path w (Outcome 2 (Streams [] [missing name] []))
| Path_unencodable c :
    resolve w = Some c ->
    utf8_encode (body_str_of w c) = None ->
    path w (Outcome 1 (Streams [] [Traceback UnicodeEncodeError] []))
| Path_failed req detail :
    request_of w = Some req ->
    server w req = Failed detail ->
    path w (Outcome 1 (Streams [] [LineExc (lit "Request failed: ") (RequestError detail)] [req]))
| Path_http_error req st body text :
    request_of w = Some req ->
    server w req = Responded st body ->
    st < 200 \/ 300 <= st ->
    utf8_decode Replace body = Some text ->
    path w (Outcome 1 (Streams []
              [Line (lit "HTTPError " ++ str_int st ++ lit ": " ++ text)] [req]))
| Path_undecodable req st body :
    request_of w = Some req ->
    server w req = Responded st body ->
    200 <= st < 300 ->
    utf8_decode Strict body = None ->
    path w (Outcome 1 (Streams []
              [LineExc (lit "Request failed: ") UnicodeDecodeError] [req]))
| Path_not_200 req st body text :
    request_of w = Some req ->
    server w req = Responded st body ->
    200 <= st < 300 -> st <> 200 ->
    utf8_decode Strict body = Some text ->
    path w (Outcome 1 (Streams []
              [Line (lit "HTTP " ++ str_int st ++ lit ": " ++ text)] [req]))
| Path_non_json req body text :
    request_of w = Some req ->
    server w req = Responded 200 body ->
    utf8_decode Strict body = Some text ->
    json_loads text = DecodeError ->
    path w (Outcome 1 (Streams [] [Line (lit "Non-JSON response: " ++ text)] [req]))
| Path_non_object req body text v :
    request_of w = Some req ->
    server w req = Responded 200 body ->
    utf8_decode Strict body = Some text ->
    json_loads text = Loaded v ->
    (forall d, v <> VDict d) ->
    path w (Outcome 1 (Streams [] [Traceback AttributeError] [req]))
| Path_unexpected req body text d :
    request_of w = Some req ->
    server w req = Responded 200 body ->
    utf8_decode Strict body = Some text ->
    json_loads text = Loaded (VDict d) ->
    truthy (field d "success") && truthy (field d "receipt") = false ->
    path w (Outcome 1 (Streams [] [Line (lit "Unexpected response: " ++ text)] [req]))
| Path_unwritable req body text d :
    request_of w = Some req ->
    server w req = Responded 200 body ->
    utf8_decode Strict body = Some text ->
    json_loads text = Loaded (VDict d) ->
    truthy (field d "success") && truthy (field d "receipt") = true ->
    writable (field d "receipt") = false ->
    path w (Outcome 1 (Streams [] [Traceback UnicodeEncodeError] [req]))
| Path_receipt req body text d :
    request_of w = Some req ->
    server w req = Responded 200 body ->
    utf8_decode Strict body = Some text ->
    json_loads text = Loaded (VDict d) ->
    truthy (field d "success") && truthy (field d "receipt") = true ->
    writable (field d "receipt") = true ->
    path w (Outcome 0 (Streams [field d "receipt"] [] [req])).

(** The environment is text. *)
Definition env_text (w : world) : Prop :=
  forall name v, environ w !! name = Some v -> Forall is_scalar v.

(** The canonical form of the payload: the six members in the order of
    their keys, a comma between members, a colon after each key, and no
    other character outside the strings. *)
Definition canonical_body (ts name email resume repo act : pystr) : pystr :=
  qlit "{'action_run_link':" ++ encode_basestring false act
    ++ qlit ",'email':" ++ encode_basestring false email
    ++ qlit ",'name':" ++ encode_basestring false name
    ++ qlit ",'repository_link':" ++ encode_basestring false repo
    ++ qlit ",'resume_link':" ++ encode_basestring false resume
    ++ qlit ",'timestamp':" ++ encode_basestring false ts
    ++ lit "}".

(** Adjacent elements are in strictly ascending order. *)
Fixpoint ascending (keys : list pystr) : bool :=
  match keys with
  | a :: (b :: _) as t => str_ltb a b && ascending t
  | _ => true
  end.

(** A variable, trimmed; empty when it is unset. *)
Definition var (w : world) (name : string) : pystr := strip (getenv w name (lit "")).

(** The address of the CI server, without trailing slashes. *)
Definition server_url (w : world) : pystr :=
  rstrip (lit "/") (getenv w "GITHUB_SERVER_URL" (lit "https://github.com")).

(** The two links as [main] computes them. *)
Definition repository_link_expr (w : world) : py pystr :=
  or_else (strip (getenv w "B12_REPOSITORY_LINK" (lit ""))) (github_repo_link w).

Definition action_run_link_expr (w : world) : py pystr :=
  or_else (strip (getenv w "B12_ACTION_RUN_LINK" (lit ""))) (github_action_run_link w).

Definition payload_keys : list pystr :=
  [ lit "action_run_link"; lit "email"; lit "name"; lit "repository_link";
    lit "resume_link"; lit "timestamp" ].

(** The answer of an endpoint that accepts the submission. *)
Definition success_body : bytes := qlit "{'success': true, 'receipt': 'abc123'}".

(** An answer whose receipt is the one character U+D800, written with the
    escape that JSON has for it. *)
Definition surrogate_body : bytes := qlit "{'success': true, 'receipt': '\ud800'}".

(** Characters that a JSON string holds as they are. *)
Definition is_plain (c : Z) : Prop := 32 <= c /\ c <> 34 /\ c <> 92.

(** The object that the canonical text denotes. *)
Definition payload_object (ts name email resume repo act : pystr) : value :=
  VDict [ (lit "action_run_link", VStr act); (lit "email", VStr email);
          (lit "name", VStr name); (lit "repository_link", VStr repo);
          (lit "resume_link", VStr resume); (lit "timestamp", VStr ts) ].

(** ** Further views, for the properties of the rest of the script *)

(** No white space at either end. *)
Definition is_trimmed (s : pystr) : Prop :=
  (forall c t, s = c :: t -> py_isspace c = false)
  /\ (forall c t, s = t ++ [c] -> py_isspace c = false).

(** The repository link has one of its three sources. *)
Definition repository_link_available (w : world) : Prop :=
  is_set w "B12_REPOSITORY_LINK" \/ is_set w "GITHUB_REPOSITORY"
  \/ is_set w "REPOSITORY_LINK".

(** The link to the run has one of its three sources. *)
Definition action_run_link_available (w : world) : Prop :=
  is_set w "B12_ACTION_RUN_LINK"
  \/ (is_set w "GITHUB_REPOSITORY" /\ is_set w "GITHUB_RUN_ID")
  \/ is_set w "ACTION_RUN_LINK".
(** * Properties *)

(** ** Known answers for the hash and the MAC *)

Example sha256_abc :
  hex (SHA256.digest (ascii_bytes "abc"))
  = lit "ba7816bf8f01cfea414140de5dae2223b00361a396177a9cb410ff61f20015ad".
Proof. vm_compute. reflexivity. Qed.

Example sha256_empty :
  hex (SHA256.digest [])
  = lit "e3b0c44298fc1c149afbf4c8996fb92427ae41e4649b934ca495991b7852b855".
Proof. vm_compute. reflexivity. Qed.

Example sha256_two_blocks :
  hex (SHA256.digest (ascii_bytes "abcdbcdecdefdefgefghfghighijhijkijkljklmklmnlmnomnopnopq"))
  = lit "248d6a61d20638b8e5c026930c3e6039a33ce45964ff2167f6ecedd419db06c1".
Proof. vm_compute. reflexivity. Qed.

(** RFC 4231, test case 2. *)
Example hmac_rfc4231_2 :
  hex (HMAC.digest (ascii_bytes "Jefe") (ascii_bytes "what do ya want for nothing?"))
  = lit "5bdcc146bf60754e6a042426089575c75a003f089d2739839dec58b964ec3843".
Proof. vm_compute. reflexivity. Qed.
(** ** The monad *)

Section Monad_laws.
Context {A B : Type} (m : py A) (k : A -> py B) (s s' : streams).

Lemma bind_normal a : m s = (s', Normal a) -> (m ≫= k) s = k a s'.
Proof. intros H. unfold mbind, py_bind. now rewrite H. Qed.

Lemma bind_exit c : m s = (s', SystemExit c) -> (m ≫= k) s = (s', SystemExit c).
Proof. intros H. unfold mbind, py_bind. now rewrite H. Qed.

Lemma bind_raise e : m s = (s', Raise e) -> (m ≫= k) s = (s', Raise e).
Proof. intros H. unfold mbind, py_bind. now rewrite H. Qed.
End Monad_laws.

Lemma str_truthy_nonempty (s : pystr) : str_truthy s = true <-> s <> [].
Proof. destruct s; simpl; split; congruence. Qed.

Lemma str_truthy_empty (s : pystr) : str_truthy s = false <-> s = [].
Proof. destruct s; simpl; split; congruence. Qed.

(** ** Configuration *)

Lemma required_env_step w name : config_step (required_env w name).
Proof.
  unfold required_env.
  destruct (str_truthy (strip (getenv w name (lit "")))) eqn:E; simpl.
  - eapply Found; [ | reflexivity ]. now apply str_truthy_nonempty.
  - eapply Missing. reflexivity.
Qed.

Lemma or_else_step a m : config_step m -> config_step (or_else a m).
Proof.
  intros Hm. unfold or_else. destruct (str_truthy a) eqn:E; [ | exact Hm ].
  eapply Found; [ | reflexivity ]. now apply str_truthy_nonempty.
Qed.

Lemma app_nonempty_r {X} (a b : list X) : b <> [] -> a ++ b <> [].
Proof. destruct a, b; simpl; congruence. Qed.

Lemma github_repo_link_step w : config_step (github_repo_link w).
Proof.
  unfold github_repo_link. cbv zeta.
  destruct (str_truthy (strip (getenv w "GITHUB_REPOSITORY" (lit "")))) eqn:E.
  - eapply Found; [ | reflexivity ]. apply app_nonempty_r. discriminate.
  - apply required_env_step.
Qed.

Lemma github_action_run_link_step w : config_step (github_action_run_link w).
Proof.
  unfold github_action_run_link. cbv zeta.
  destruct (str_truthy (strip (getenv w "GITHUB_REPOSITORY" (lit ""))) &&
            str_truthy (strip (getenv w "GITHUB_RUN_ID" (lit "")))) eqn:E.
  - eapply Found; [ | reflexivity ]. apply app_nonempty_r. discriminate.
  - apply required_env_step.
Qed.

(** ** The JSON reader never runs out of fuel *)

Lemma lstrip_by_length p s : (length (lstrip_by p s) <= length s)%nat.
Proof.
  induction s as [ | c s IH ]; simpl; [ lia | ]. destruct (p c); simpl; lia.
Qed.

Lemma skip_ws_cons t c r : skip_ws t = c :: r -> (length r < length t)%nat.
Proof.
  intros H. pose proof (lstrip_by_length is_json_ws t) as L.
  unfold skip_ws in H. rewrite H in L. simpl in L. lia.
Qed.

Lemma scan_string_length s : forall k str r,
  scan_string k s = Some (str, r) -> (length r < length s)%nat.
Proof.
  induction s as [ | c t IH ]; intros k str r; simpl; [ discriminate | ].
  destruct k as [ | k ].
  2:{ intros H. apply IH in H. lia. }
  repeat case_match; try discriminate; intros Hscan;
    try (apply fmap_Some in Hscan as ([ str' r' ] & Hscan & Heq); inversion Heq; subst;
         apply IH in Hscan; lia).
  inversion Hscan; subst. lia.
Qed.

Lemma span_digits_length s : (length (snd (span_digits s)) <= length s)%nat.
Proof.
  induction s as [ | c s IH ]; simpl; [ lia | ]. destruct (is_digit c); simpl; lia.
Qed.

Lemma match_frac_length s : (length (snd (match_frac s)) <= length s)%nat.
Proof.
  unfold match_frac. destruct s as [ | c t ]; [ simpl; lia | ].
  destruct (c =? 46); [ | simpl; lia ].
  pose proof (span_digits_length t) as L.
  destruct (span_digits t) as [ [ | d ds ] r ]; simpl in *; lia.
Qed.

Lemma match_exp_length s : (length (snd (match_exp s)) <= length s)%nat.
Proof.
  unfold match_exp. destruct s as [ | c t ]; [ simpl; lia | ].
  destruct ((c =? 101) || (c =? 69)); [ | simpl; lia ].
  assert (H : forall t1, (length t1 <= length t)%nat ->
                         (length (snd (match span_digits t1 with
                                       | ([], _) => (None, c :: t)
                                       | (d :: ds, r) => (Some 0, r)
                                       end)) <= length (c :: t))%nat).
  { intros t1 L1. pose proof (span_digits_length t1) as L.
    destruct (span_digits t1) as [ [ | d ds ] r ]; simpl in *; lia. }
  destruct t as [ | sg t' ].
  - simpl. lia.
  - destruct (sg =? 45); [ | destruct (sg =? 43) ].
    + specialize (H t' ltac:(simpl; lia)).
      destruct (span_digits t') as [ [ | d ds ] r ]; simpl in *; lia.
    + specialize (H t' ltac:(simpl; lia)).
      destruct (span_digits t') as [ [ | d ds ] r ]; simpl in *; lia.
    + specialize (H (sg :: t') ltac:(simpl; lia)).
      destruct (span_digits (sg :: t')) as [ [ | d ds ] r ]; simpl in *; lia.
Qed.

Lemma match_number_length s v r :
  match_number s = Some (v, r) -> (length r < length s)%nat.
Proof.
  unfold match_number.
  assert (H : forall s1 neg, (length s1 <= length s)%nat ->
     match s1 with
     | [] => None
     | c :: t =>
         match (if c =? 48 then Some ([c], t)
                else if in_range 49 57 c
                     then Some (c :: fst (span_digits t), snd (span_digits t))
                     else None) with
         | None => None
         | Some (ip, r1) =>
             let '(frac, r2) := match_frac r1 in
             let '(ex, r3) := match_exp r2 in
             match frac, ex with
             | [], None => Some (VInt (if neg then - digits_value ip else digits_value ip), r3)
             | _, _ => Some (VFloat (FDec neg (digits_value (ip ++ frac))
                                        (default 0 ex - Z.of_nat (length frac))), r3)
             end
         end
     end = Some (v, r) -> (length r < length s)%nat).
  { intros [ | c t ] neg L; [ discriminate | ].
    assert (Hr1 : forall ip r1, (length r1 <= length t)%nat ->
       (let '(frac, r2) := match_frac r1 in
        let '(ex, r3) := match_exp r2 in
        match frac, ex with
        | [], None => Some (VInt (if neg then - digits_value ip else digits_value ip), r3)
        | _, _ => Some (VFloat (FDec neg (digits_value (ip ++ frac))
                                   (default 0 ex - Z.of_nat (length frac))), r3)
        end) = Some (v, r) -> (length r < length s)%nat).
    { intros ip r1 L1.
      pose proof (match_frac_length r1) as Lf.
      destruct (match_frac r1) as [ frac r2 ].
      pose proof (match_exp_length r2) as Le.
      destruct (match_exp r2) as [ ex r3 ].
      simpl in *. destruct frac, ex; intros H; inversion H; subst; lia. }
    destruct (c =? 48); [ apply Hr1; lia | ].
    destruct (in_range 49 57 c); [ | discriminate ].
    apply Hr1. pose proof (span_digits_length t). lia. }
  destruct s as [ | c t ]; [ discriminate | ].
  destruct (c =? 45).
  - apply (H t true). simpl. lia.
  - apply (H (c :: t) false). lia.
Qed.

Ltac consumed IHv IHe IHm :=
  repeat match goal with
         | H : skip_ws _ = _ :: _ |- _ => apply skip_ws_cons in H
         | H : scan_string _ _ = Some _ |- _ => apply scan_string_length in H
         | H : match_number _ = Some _ |- _ => apply match_number_length in H
         | H : parse_value _ _ = Ok _ _ |- _ => apply IHv in H
         | H : parse_elems _ _ = Ok _ _ |- _ => apply IHe in H
         | H : parse_members _ _ = Ok _ _ |- _ => apply IHm in H
         end;
  repeat match goal with
         | H : context [ length (skip_ws ?p) ] |- _ =>
             lazymatch goal with
             | _ : (length (skip_ws p) <= length p)%nat |- _ => fail
             | _ => pose proof (lstrip_by_length is_json_ws p
                                : (length (skip_ws p) <= length p)%nat)
             end
         | |- context [ length (skip_ws ?p) ] =>
             lazymatch goal with
             | _ : (length (skip_ws p) <= length p)%nat |- _ => fail
             | _ => pose proof (lstrip_by_length is_json_ws p
                                : (length (skip_ws p) <= length p)%nat)
             end
         end;
  simpl length in *; rewrite ?length_drop; try lia.

(** A value, a run of elements and a run of members each take at least one
    character of the input. *)
Lemma parse_consumes f :
  (forall s v r, parse_value f s = Ok v r -> (length r < length s)%nat)
  /\ (forall s vs r, parse_elems f s = Ok vs r -> (length r < length s)%nat)
  /\ (forall s ps r, parse_members f s = Ok ps r -> (length r < length s)%nat).
Proof.
  induction f as [ | f (IHv & IHe & IHm) ]; [ repeat split; discriminate | ].
  split; [ | split ].
  - intros [ | c t ] v r; [ discriminate | ].
    cbn [parse_value]. unfold parsed_bind.
    repeat case_match; intros Hp; simplify_eq; consumed IHv IHe IHm.
  - intros s vs r. cbn [parse_elems]. unfold parsed_bind.
    repeat case_match; intros Hp; simplify_eq; consumed IHv IHe IHm.
  - intros s ps r. cbn [parse_members]. unfold parsed_bind.
    repeat case_match; intros Hp; simplify_eq; consumed IHv IHe IHm.
Qed.

Ltac out_of_fuel Fv Fe Fm Cv Ce Cm :=
  try discriminate;
  match goal with
  | H : parse_value _ _ = NoFuel |- _ => exfalso; revert H; apply Fv
  | H : parse_elems _ _ = NoFuel |- _ => exfalso; revert H; apply Fe
  | H : parse_members _ _ = NoFuel |- _ => exfalso; revert H; apply Fm
  end;
  consumed Cv Ce Cm.

(** Twice the length of the input, and one more, is fuel enough. *)
Lemma parse_fuel f :
  (forall s, (2 * length s + 1 <= f)%nat -> parse_value f s <> NoFuel)
  /\ (forall s, (2 * length s + 2 <= f)%nat -> parse_elems f s <> NoFuel)
  /\ (forall s, (2 * length s + 2 <= f)%nat -> parse_members f s <> NoFuel).
Proof.
  induction f as [ | f (Fv & Fe & Fm) ]; [ repeat split; intros; lia | ].
  destruct (parse_consumes f) as (Cv & Ce & Cm).
  split; [ | split ].
  - intros [ | c t ] L; [ discriminate | ]. simpl length in L.
    cbn [parse_value]. unfold parsed_bind.
    repeat case_match; simplify_eq; out_of_fuel Fv Fe Fm Cv Ce Cm.
  - intros s L. cbn [parse_elems]. unfold parsed_bind.
    repeat case_match; simplify_eq; out_of_fuel Fv Fe Fm Cv Ce Cm.
  - intros s L. cbn [parse_members]. unfold parsed_bind.
    repeat case_match; simplify_eq; out_of_fuel Fv Fe Fm Cv Ce Cm.
Qed.

Lemma json_loads_total s : json_loads s <> Exhausted.
Proof.
  unfold json_loads.
  destruct (parse_fuel (2 * length s + 1)) as (Fv & _ & _).
  specialize (Fv (skip_ws s)).
  pose proof (lstrip_by_length is_json_ws s : (length (skip_ws s) <= length s)%nat).
  repeat case_match; try discriminate; exfalso; (apply Fv; [ lia | reflexivity ]).
Qed.

(** ** The paths of [main] *)

Lemma encode_secret : utf8_encode SIGNING_SECRET = Some secret_key.
Proof. vm_compute. reflexivity. Qed.

Lemma utf8_decode_replace_total k s : exists t, utf8_decode_from Replace k s = Some t.
Proof.
  revert k. induction s as [ | b s IH ]; intros k; simpl; [ now eexists | ].
  destruct k as [ | k ]; [ | apply IH ].
  destruct (utf8_decode_step b s) as [ c n | n ];
    destruct (IH (Nat.pred n)) as [ t Ht ]; rewrite Ht; now eexists.
Qed.

Lemma encode_some x b s : utf8_encode x = Some b -> encode x s = (s, Normal b).
Proof. intros H. unfold encode. now rewrite H. Qed.

Lemma encode_none x s : utf8_encode x = None -> encode x s = (s, Raise UnicodeEncodeError).
Proof. intros H. unfold encode. now rewrite H. Qed.

Lemma run_path w : path w (run w).
Proof.
  unfold run, main.
  destruct (required_env_step w "B12_EMAIL") as [ email He1 H1 | n1 H1 ].
  2:{ rewrite (bind_exit _ _ _ _ _ (H1 _)). apply Path_missing.
      unfold resolve, value_of. now rewrite H1. }
  rewrite (bind_normal _ _ _ _ _ (H1 _)).
  destruct (or_else_step (strip (getenv w "B12_REPOSITORY_LINK" (lit ""))) _
              (github_repo_link_step w)) as [ repo He2 H2 | n2 H2 ].
  2:{ cbv zeta. rewrite (bind_exit _ _ _ _ _ (H2 _)). apply Path_missing.
      unfold resolve, value_of. rewrite H1. simpl. now rewrite H2. }
  cbv zeta. rewrite (bind_normal _ _ _ _ _ (H2 _)).
  destruct (or_else_step (strip (getenv w "B12_ACTION_RUN_LINK" (lit ""))) _
              (github_action_run_link_step w)) as [ act He3 H3 | n3 H3 ].
  2:{ cbv zeta. rewrite (bind_exit _ _ _ _ _ (H3 _)). apply Path_missing.
      unfold resolve, value_of. rewrite H1. simpl. rewrite H2. simpl. now rewrite H3. }
  rewrite (bind_normal _ _ _ _ _ (H3 _)).
  assert (Hc : resolve w = Some (Config email repo act)).
  { unfold resolve, value_of. rewrite H1. simpl. rewrite H2. simpl. now rewrite H3. }
  change (json_dumps (lit ",") (lit ":") true false _)
    with (body_str_of w (Config email repo act)).
  destruct (utf8_encode (body_str_of w (Config email repo act))) as [ bb | ] eqn:Eb.
  2:{ erewrite bind_raise by (apply encode_none; eassumption).
      cbn [app stdout stderr posted]. eapply Path_unencodable; eassumption. }
  erewrite bind_normal by (apply encode_some; eassumption).
  erewrite bind_normal by (apply encode_some, encode_secret).
  change (Request B12_ENDPOINT bb _ _ 30) with (request_for bb).
  assert (Hr : request_of w = Some (request_for bb)).
  { unfold request_of. rewrite Hc. unfold mbind, option_bind. now rewrite Eb. }
  generalize dependent (request_for bb). intros req Hr.
  unfold mbind, py_bind, try_except, urlopen, decode, loads, get_method, eprint,
    print, sys_exit, raise, mret, py_ret.
  cbn [app stdout stderr posted].
  destruct (server w req) as [ st body | detail ] eqn:Es.
  2:{ cbn [app stdout stderr posted]. eapply Path_failed; eassumption. }
  destruct ((200 <=? st) && (st <? 300)) eqn:E2xx.
  - apply andb_true_iff in E2xx as [ Hlo Hhi ].
    apply Z.leb_le in Hlo. apply Z.ltb_lt in Hhi.
    cbn [status content].
    destruct (utf8_decode Strict body) as [ text | ] eqn:Ed;
      cbn [app stdout stderr posted].
    2:{ eapply Path_undecodable; eauto. }
    destruct (st =? 200) eqn:E200; cbn [negb app stdout stderr posted].
    2:{ apply Z.eqb_neq in E200. eapply Path_not_200; eauto. }
    apply Z.eqb_eq in E200. subst st.
    destruct (json_loads text) as [ v | | ] eqn:Ej; cbn [app stdout stderr posted].
    2:{ eapply Path_non_json; eauto. }
    2:{ now apply json_loads_total in Ej. }
    destruct v as [ | b | n | f | str | l | d ]; cbn [app stdout stderr posted];
      try (eapply Path_non_object; eauto; congruence).
    change (default VNone (dict_get d (lit "receipt"))) with (field d "receipt").
    change (default VNone (dict_get d (lit "success"))) with (field d "success").
    rewrite <- negb_andb.
    destruct (truthy (field d "success") && truthy (field d "receipt")) eqn:Et;
      cbn [negb app stdout stderr posted].
    + destruct (writable (field d "receipt")) eqn:Ew; cbn [app stdout stderr posted].
      * eapply Path_receipt; eauto.
      * eapply Path_unwritable; eauto.
    + eapply Path_unexpected; eauto.
  - apply andb_false_iff in E2xx.
    assert (Hst : st < 200 \/ 300 <= st).
    { destruct E2xx as [ E | E ]; [ apply Z.leb_gt in E | apply Z.ltb_ge in E ]; lia. }
    destruct (utf8_decode_replace_total 0 body) as [ text Ht ].
    cbn [app stdout stderr posted]. unfold utf8_decode at 1. rewrite Ht.
    cbn [app stdout stderr posted]. eapply Path_http_error; eauto.
Qed.

(** Whether a request was posted, and which, is decided before the network
    is consulted. *)
Lemma posted_request w :
  posted (final (run w)) = match request_of w with Some r => [r] | None => [] end.
Proof.
  pose proof (run_path w) as P. remember (run w) as o eqn:Eo.
  destruct P; cbn [posted final];
    repeat match goal with
           | H : request_of _ = Some _ |- _ => rewrite H; clear H
           end; try reflexivity.
  - unfold request_of. now rewrite H.
  - unfold request_of. rewrite H. unfold mbind, option_bind. now rewrite H0.
Qed.

Lemma posted_request_of w req :
  posted (final (run w)) = [req] -> request_of w = Some req.
Proof.
  rewrite posted_request. destruct (request_of w); intros H; now inversion H.
Qed.

(** ** Missing configuration *)

Lemma required_env_blank w name s :
  strip (getenv w name (lit "")) = [] ->
  required_env w name s = (add_err s (missing name), SystemExit 2).
Proof. intros H. unfold required_env. now rewrite H. Qed.

(** C4: when [B12_EMAIL] is unset, or set to a value that is blank once
    trimmed, the process exits with status 2 and its error stream holds one
    line, which names [B12_EMAIL]; nothing is printed and nothing is sent. *)
Theorem missing_email_exits_2 (w : world) :
  environ w !! "B12_EMAIL" = None
  \/ (exists v, environ w !! "B12_EMAIL" = Some v /\ strip v = []) ->
  run w = Outcome 2 (Streams [] [Line (lit "Missing required environment variable: B12_EMAIL")] [])
  /\ Exists (fun l => line_contains (lit "B12_EMAIL") l = true) (stderr (final (run w))).
Proof.
  intros H.
  assert (Hblank : strip (getenv w "B12_EMAIL" (lit "")) = []).
  { unfold getenv. destruct H as [ -> | (v & -> & Hv) ]; [ reflexivity | exact Hv ]. }
  assert (Hrun : run w = Outcome 2 (Streams [] [missing "B12_EMAIL"] [])).
  { unfold run, main.
    erewrite bind_exit by (apply required_env_blank; exact Hblank). reflexivity. }
  split; [ exact Hrun | ].
  rewrite Hrun. apply Exists_cons_hd. vm_compute. reflexivity.
Qed.

Lemma missing_email_exits_2_witness :
  exit_status (run (World ∅ (DateTime 2026 1 2 3 4 5 6) (fun _ => Failed []))) = 2.
Proof.
  destruct (missing_email_exits_2 (World ∅ (DateTime 2026 1 2 3 4 5 6) (fun _ => Failed [])))
    as [ Hrun _ ].
  - left. reflexivity.
  - rewrite Hrun. reflexivity.
Defined.

(** ** Decimal formatting *)

Lemma decimal_aux_small f n : 0 <= n < 10 -> decimal_aux (S f) n = [48 + n].
Proof. intros H. simpl. destruct (Z.ltb_spec n 10); [ reflexivity | lia ]. Qed.

Lemma decimal_aux_step f n :
  10 <= n -> decimal_aux (S f) n = decimal_aux f (n / 10) ++ [48 + n mod 10].
Proof. intros H. simpl. destruct (Z.ltb_spec n 10); [ lia | reflexivity ]. Qed.

Lemma pow2_S (f : nat) : 2 ^ Z.of_nat (S f) = 2 * 2 ^ Z.of_nat f.
Proof. rewrite Nat2Z.inj_succ. apply Z.pow_succ_r. lia. Qed.

Lemma pow2_pos (f : nat) : 0 < 2 ^ Z.of_nat f.
Proof. apply Z.pow_pos_nonneg; lia. Qed.

(** The result does not depend on the fuel, once there is enough of it. *)
Lemma decimal_aux_fuel f : forall g n,
  0 <= n < 2 ^ Z.of_nat (S f) -> 0 <= n < 2 ^ Z.of_nat (S g) ->
  decimal_aux (S f) n = decimal_aux (S g) n.
Proof.
  induction f as [ | f IH ]; intros g n Hf Hg.
  - change (2 ^ Z.of_nat 1) with 2 in Hf.
    rewrite !decimal_aux_small by lia. reflexivity.
  - destruct (Z.lt_ge_cases n 10) as [ Hn | Hn ].
    + rewrite !decimal_aux_small by lia. reflexivity.
    + destruct g as [ | g ].
      { change (2 ^ Z.of_nat 1) with 2 in Hg. lia. }
      rewrite (decimal_aux_step (S f) n), (decimal_aux_step (S g) n) by lia. f_equal.
      rewrite pow2_S in Hf, Hg.
      pose proof (pow2_pos (S f)). pose proof (pow2_pos (S g)).
      apply IH; (split; [ apply Z.div_pos; lia | apply Z.div_lt_upper_bound; lia ]).
Qed.

Lemma decimal_fuel_enough n : 0 <= n -> n < 2 ^ Z.of_nat (S (Z.to_nat (Z.log2 n))).
Proof.
  intros H. rewrite Nat2Z.inj_succ, Z2Nat.id by apply Z.log2_nonneg.
  destruct (Z.eq_dec n 0) as [ -> | Hn ]; [ reflexivity | ].
  apply Z.log2_spec. lia.
Qed.

Lemma decimal_small n : 0 <= n < 10 -> decimal n = [48 + n].
Proof. intros H. unfold decimal. now apply decimal_aux_small. Qed.

Lemma decimal_step n : 10 <= n -> decimal n = decimal (n / 10) ++ [48 + n mod 10].
Proof.
  intros H. unfold decimal. rewrite decimal_aux_step by lia. f_equal.
  assert (H10 : 0 <= n / 10) by (apply Z.div_pos; lia).
  pose proof (decimal_fuel_enough n ltac:(lia)) as Hn.
  destruct (Z.to_nat (Z.log2 n)) as [ | f ] eqn:Ef.
  { change (2 ^ Z.of_nat 1) with 2 in Hn. lia. }
  apply decimal_aux_fuel.
  - rewrite pow2_S in Hn. pose proof (pow2_pos (S f)).
    split; [ lia | apply Z.div_lt_upper_bound; lia ].
  - split; [ lia | now apply decimal_fuel_enough ].
Qed.

Lemma digits_value_snoc ds c : digits_value (ds ++ [c]) = digits_value ds * 10 + (c - 48).
Proof. unfold digits_value. now rewrite fold_left_app. Qed.

Lemma is_digit_spec c : is_digit c = true <-> 48 <= c <= 57.
Proof. unfold is_digit, in_range. rewrite andb_true_iff, Z.leb_le, Z.leb_le. tauto. Qed.

(** A number below [10^k] is written with at most [k] digits, and reads
    back as itself. *)
Lemma decimal_spec k : forall n,
  0 <= n < 10 ^ Z.of_nat (S k) ->
  (1 <= length (decimal n) <= S k)%nat
  /\ all_digits (decimal n)
  /\ digits_value (decimal n) = n.
Proof.
  induction k as [ | k IH ]; intros n Hn.
  - change (10 ^ Z.of_nat 1) with 10 in Hn. rewrite decimal_small by lia.
    repeat split; simpl; try lia.
    + repeat constructor. apply is_digit_spec. lia.
    + unfold digits_value. simpl. lia.
  - destruct (Z.lt_ge_cases n 10) as [ Hs | Hs ].
    + rewrite decimal_small by lia. repeat split; simpl; try lia.
      * repeat constructor. apply is_digit_spec. lia.
      * unfold digits_value. simpl. lia.
    + rewrite decimal_step by lia.
      assert (Hq : 0 <= n / 10 < 10 ^ Z.of_nat (S k)).
      { rewrite (Nat2Z.inj_succ (S k)), Z.pow_succ_r in Hn by lia.
        split; [ apply Z.div_pos; lia | apply Z.div_lt_upper_bound; lia ]. }
      destruct (IH _ Hq) as (Hlen & Hdig & Hval).
      pose proof (Z.mod_pos_bound n 10 ltac:(lia)) as Hm.
      repeat split.
      * rewrite length_app. simpl. lia.
      * rewrite length_app. simpl. lia.
      * apply Forall_app. split; [ exact Hdig | ].
        repeat constructor. apply is_digit_spec. lia.
      * rewrite digits_value_snoc, Hval.
        pose proof (Z.div_mod n 10 ltac:(lia)). lia.
Qed.

Lemma digits_value_zeros j ds : digits_value (repeat 48 j ++ ds) = digits_value ds.
Proof.
  unfold digits_value. rewrite fold_left_app. f_equal.
  induction j as [ | j IH ]; [ reflexivity | exact IH ].
Qed.

Lemma fmt_0d_spec k n :
  0 <= n < 10 ^ Z.of_nat (S k) ->
  length (fmt_0d (S k) n) = S k
  /\ all_digits (fmt_0d (S k) n)
  /\ digits_value (fmt_0d (S k) n) = n.
Proof.
  intros Hn. destruct (decimal_spec k n Hn) as (Hlen & Hdig & Hval).
  unfold fmt_0d. cbv zeta. repeat split.
  - rewrite length_app, repeat_length. lia.
  - apply Forall_app. split; [ | exact Hdig ].
    apply Forall_forall. intros c Hc. apply list_elem_of_In, repeat_spec in Hc. now subst.
  - now rewrite digits_value_zeros.
Qed.

(** ** The timestamp *)

Lemma replace_from_passes o old new pre s :
  Forall (fun c => c <> o) pre ->
  replace_from (o :: old) new O (pre ++ s) = pre ++ replace_from (o :: old) new O s.
Proof.
  induction 1 as [ | c pre Hc _ IH ]; [ reflexivity | ].
  cbn [app replace_from is_prefix].
  destruct (Z.eqb_spec o c) as [ -> | _ ]; [ congruence | ].
  cbn [andb]. now rewrite IH.
Qed.

Lemma contains_absent o old s :
  Forall (fun c => c <> o) s -> contains (o :: old) s = false.
Proof.
  induction 1 as [ | c s Hc _ IH ]; [ reflexivity | ].
  cbn [contains is_prefix]. rewrite IH.
  destruct (Z.eqb_spec o c) as [ -> | _ ]; [ congruence | reflexivity ].
Qed.

Lemma matches_app p1 p2 s1 s2 :
  matches p1 s1 = true -> matches p2 s2 = true -> matches (p1 ++ p2) (s1 ++ s2) = true.
Proof.
  revert s1. induction p1 as [ | p p1 IH ]; intros [ | c s1 ]; simpl; try discriminate.
  - intros _ H. exact H.
  - intros H1 H2. apply andb_true_iff in H1 as [ Hp H1 ]. rewrite Hp. now apply IH.
Qed.

Lemma matches_digits k s :
  length s = k -> all_digits s -> matches (repeat is_digit k) s = true.
Proof.
  intros <-. induction 1 as [ | c s Hc _ IH ]; simpl; [ reflexivity | now rewrite Hc ].
Qed.

Section Timestamp.
Variable d : datetime.
Hypothesis valid : datetime_valid d.

Let ms := microsecond d / 1000.

Lemma milliseconds_bound : 0 <= ms < 1000.
Proof.
  unfold ms. destruct valid as (_ & _ & _ & _ & _ & _ & Hu).
  split; [ apply Z.div_pos; lia | apply Z.div_lt_upper_bound; lia ].
Qed.

Lemma isoformat_ms_pattern :
  matches (firstn 23 timestamp_pattern) (isoformat_ms d) = true
  /\ Forall (fun c => c <> 43) (isoformat_ms d)
  /\ Forall is_scalar (isoformat_ms d)
  /\ digits_value (take 3 (drop 20 (isoformat_ms d))) = ms.
Proof.
  pose proof milliseconds_bound as Hms.
  destruct valid as (Hy & Hmo & Hd & Hh & Hmi & Hs & Hu).
  destruct (fmt_0d_spec 3 (year d)) as (Ly & Dy & _); [ simpl; lia | ].
  destruct (fmt_0d_spec 1 (month d)) as (Lmo & Dmo & _); [ simpl; lia | ].
  destruct (fmt_0d_spec 1 (day d)) as (Ld & Dd & _); [ simpl; lia | ].
  destruct (fmt_0d_spec 1 (hour d)) as (Lh & Dh & _); [ simpl; lia | ].
  destruct (fmt_0d_spec 1 (minute d)) as (Lmi & Dmi & _); [ simpl; lia | ].
  destruct (fmt_0d_spec 1 (second d)) as (Ls & Ds & _); [ simpl; lia | ].
  destruct (fmt_0d_spec 2 ms) as (Lms & Dms & Vms); [ simpl; lia | ].
  assert (Hplus : forall s, all_digits s -> Forall (fun c => c <> 43) s).
  { intros s Hall. eapply Forall_impl; [ exact Hall | ].
    intros c Hc. apply is_digit_spec in Hc. lia. }
  assert (Hsc : forall s, all_digits s -> Forall is_scalar s).
  { intros s Hall. eapply Forall_impl; [ exact Hall | ].
    intros c Hc. apply is_digit_spec in Hc. unfold is_scalar. lia. }
  unfold isoformat_ms. fold ms.
  generalize dependent (fmt_0d 4 (year d)). intros Y Ly Dy.
  generalize dependent (fmt_0d 2 (month d)). intros Mo Lmo Dmo.
  generalize dependent (fmt_0d 2 (day d)). intros Da Ld Dd.
  generalize dependent (fmt_0d 2 (hour d)). intros Ho Lh Dh.
  generalize dependent (fmt_0d 2 (minute d)). intros Mi Lmi Dmi.
  generalize dependent (fmt_0d 2 (second d)). intros Se Ls Ds.
  generalize dependent (fmt_0d 3 ms). intros Ms Lms Dms Vms.
  repeat split.
  - unfold timestamp_pattern.
    change (firstn 23 _) with
      (repeat is_digit 4 ++ [is_char 45] ++ repeat is_digit 2 ++ [is_char 45]
         ++ repeat is_digit 2 ++ [is_char 84] ++ repeat is_digit 2 ++ [is_char 58]
         ++ repeat is_digit 2 ++ [is_char 58] ++ repeat is_digit 2 ++ [is_char 46]
         ++ repeat is_digit 3).
    repeat (first [ apply matches_app; [ first [ now apply matches_digits | reflexivity ] | ]
                  | now apply matches_digits ]).
  - repeat (apply Forall_app; split); auto; repeat constructor; discriminate.
  - repeat (apply Forall_app; split); auto;
      (constructor; [ | constructor ]); unfold is_scalar; cbn; lia.
  - rewrite <- Vms. f_equal.
    destruct Y as [ | y1 [ | y2 [ | y3 [ | y4 [ | ] ] ] ] ]; try discriminate.
    destruct Mo as [ | a1 [ | a2 [ | ] ] ]; try discriminate.
    destruct Da as [ | b1 [ | b2 [ | ] ] ]; try discriminate.
    destruct Ho as [ | c1 [ | c2 [ | ] ] ]; try discriminate.
    destruct Mi as [ | e1 [ | e2 [ | ] ] ]; try discriminate.
    destruct Se as [ | f1 [ | f2 [ | ] ] ]; try discriminate.
    destruct Ms as [ | g1 [ | g2 [ | g3 [ | ] ] ] ]; try discriminate.
    reflexivity.
Qed.

Lemma timestamp_replace :
  replace (lit "+00:00") (lit "Z") (isoformat_ms_utc d) = isoformat_ms d ++ lit "Z".
Proof.
  destruct isoformat_ms_pattern as (_ & Hplus & _).
  unfold isoformat_ms_utc.
  change (lit "+00:00") with [43; 48; 48; 58; 48; 48]. unfold replace.
  now rewrite replace_from_passes.
Qed.

End Timestamp.

Lemma matches_length p s : matches p s = true -> length s = length p.
Proof.
  revert s. induction p as [ | c p IH ]; intros [ | x s ]; simpl; try discriminate.
  - reflexivity.
  - intros H. apply andb_true_iff in H as [ _ H ]. now rewrite (IH _ H).
Qed.

(** C8: whenever the clock holds a date and time of day, the timestamp is
    that instant written as [YYYY-MM-DDTHH:MM:SS.mmm] followed by the letter
    [Z]: it matches the pattern position by position, its three millisecond
    digits read back as the microseconds divided by 1000 and rounded down,
    the text [+00:00] does not occur in it, and it is the value stored under
    [timestamp] in the payload. *)
Theorem timestamp_format (w : world) :
  datetime_valid (utcnow w) ->
  let ts := iso8601_utc_now_ms w in
  ts = isoformat_ms (utcnow w) ++ lit "Z"
  /\ matches timestamp_pattern ts = true
  /\ contains (lit "+00:00") ts = false
  /\ digits_value (take 3 (drop 20 ts)) = microsecond (utcnow w) / 1000
  /\ forall c, dict_get (payload_of w c) (lit "timestamp") = Some ts.
Proof.
  intros Hv ts.
  destruct (isoformat_ms_pattern _ Hv) as (Hm & Hplus & _ & Hms).
  assert (Hts : ts = isoformat_ms (utcnow w) ++ lit "Z").
  { unfold ts, iso8601_utc_now_ms. now apply timestamp_replace. }
  pose proof (matches_length _ _ Hm) as Hlen.
  change (length (firstn 23 timestamp_pattern)) with 23%nat in Hlen.
  split; [ exact Hts | ]. rewrite Hts. repeat split.
  - change timestamp_pattern with (firstn 23 timestamp_pattern ++ [is_char 90]).
    apply matches_app; [ exact Hm | reflexivity ].
  - change (lit "+00:00") with [43; 48; 48; 58; 48; 48].
    apply contains_absent, Forall_app. split; [ exact Hplus | ].
    constructor; [ discriminate | constructor ].
  - rewrite drop_app_le by lia. rewrite take_app_le; [ exact Hms | ].
    rewrite length_drop. lia.
  - intros c. rewrite <- Hts. reflexivity.
Qed.

Lemma timestamp_format_witness :
  matches timestamp_pattern (iso8601_utc_now_ms (example_world (Failed []))) = true.
Proof.
  apply (timestamp_format (example_world (Failed []))).
  unfold datetime_valid. simpl. lia.
Defined.

Example timestamp_example :
  iso8601_utc_now_ms (example_world (Failed [])) = lit "2026-01-02T03:04:05.678Z".
Proof. vm_compute. reflexivity. Qed.

(** ** UTF-8 *)

Lemma in_range_true lo hi b : lo <= b <= hi -> in_range lo hi b = true.
Proof. intros H. unfold in_range. apply andb_true_iff. split; apply Z.leb_le; lia. Qed.

Lemma in_range_false lo hi b : b < lo \/ hi < b -> in_range lo hi b = false.
Proof.
  intros H. unfold in_range. apply andb_false_iff.
  destruct H; [ left | right ]; apply Z.leb_gt; lia.
Qed.

Ltac div_lia := Z.div_mod_to_equations; lia.

Ltac decide_ranges :=
  unfold is_cont;
  repeat match goal with
         | |- context [ ?x =? ?y ] =>
             first [ rewrite (proj2 (Z.eqb_eq x y)) by div_lia
                   | rewrite (proj2 (Z.eqb_neq x y)) by div_lia
                   | destruct (Z.eqb_spec x y) ]
         | |- context [ in_range ?lo ?hi ?x ] =>
             first [ rewrite (in_range_true lo hi x) by div_lia
                   | rewrite (in_range_false lo hi x) by div_lia ]
         end.

Lemma utf8_encode_char_scalar c : is_scalar c -> is_Some (utf8_encode_char c).
Proof.
  intros H. unfold utf8_encode_char, is_scalar in *.
  repeat match goal with
         | |- context [ ?x <? ?y ] => destruct (Z.ltb_spec x y)
         | |- context [ ?x <=? ?y ] => destruct (Z.leb_spec x y)
         end; cbn [andb]; try (now eexists); lia.
Qed.

(** Text without surrogates has a UTF-8 form. *)
Lemma utf8_encode_scalar s : Forall is_scalar s -> is_Some (utf8_encode s).
Proof.
  induction 1 as [ | c s Hc _ IH ]; simpl; [ now eexists | ].
  destruct (utf8_encode_char_scalar c Hc) as [ b -> ].
  destruct IH as [ bs -> ]. now eexists.
Qed.

(** Only text without surrogates has one. *)
Lemma utf8_encode_char_is_scalar c b : utf8_encode_char c = Some b -> is_scalar c.
Proof.
  unfold utf8_encode_char, is_scalar.
  repeat match goal with
         | |- context [ ?x <? ?y ] => destruct (Z.ltb_spec x y)
         | |- context [ ?x <=? ?y ] => destruct (Z.leb_spec x y)
         end; cbn [andb]; intros E; try discriminate E; lia.
Qed.

Lemma utf8_encode_is_scalar s : forall b, utf8_encode s = Some b -> Forall is_scalar s.
Proof.
  induction s as [ | c s IH ]; intros b E; [ constructor | ].
  cbn [utf8_encode] in E.
  destruct (utf8_encode_char c) as [ bc | ] eqn:Ec; [ | discriminate ].
  destruct (utf8_encode s) as [ bs | ] eqn:Es; [ | discriminate ].
  constructor; [ eapply utf8_encode_char_is_scalar, Ec | eapply IH; reflexivity ].
Qed.

(** Decoding undoes encoding, one character at a time. *)
Lemma utf8_decode_encode_char e c bs rest :
  utf8_encode_char c = Some bs ->
  utf8_decode_from e O (bs ++ rest) = cons c <$> utf8_decode_from e O rest.
Proof.
  unfold utf8_encode_char.
  repeat match goal with
         | |- context [ ?x <? ?y ] => destruct (Z.ltb_spec x y)
         | |- context [ (?x <=? ?y) && (?u <=? ?v) ] =>
             destruct (Z.leb_spec x y), (Z.leb_spec u v); cbn [andb]
         end; intros Heq; inversion Heq; subst; clear Heq;
    cbn [app utf8_decode_from]; unfold utf8_decode_step; decide_ranges;
    cbn [Nat.pred utf8_decode_from]; do 2 f_equal; div_lia.
Qed.

Lemma utf8_decode_encode s : forall bs,
  utf8_encode s = Some bs -> utf8_decode Strict bs = Some s.
Proof.
  unfold utf8_decode.
  induction s as [ | c s IH ]; intros bs; simpl.
  - intros H. now inversion H.
  - destruct (utf8_encode_char c) as [ b | ] eqn:Ec; [ | discriminate ].
    destruct (utf8_encode s) as [ bs' | ] eqn:Es; [ | discriminate ].
    intros H. inversion H; subst; clear H.
    rewrite (utf8_decode_encode_char _ _ _ _ Ec), (IH _ eq_refl). reflexivity.
Qed.

(** Where strict decoding succeeds, decoding with replacement agrees. *)
Lemma utf8_decode_strict_replace s : forall k t,
  utf8_decode_from Strict k s = Some t -> utf8_decode_from Replace k s = Some t.
Proof.
  induction s as [ | b s IH ]; intros k t; simpl; [ trivial | ].
  destruct k as [ | k ]; [ | apply IH ].
  destruct (utf8_decode_step b s) as [ c n | n ]; [ | discriminate ].
  destruct (utf8_decode_from Strict (Nat.pred n) s) as [ t' | ] eqn:E; [ | discriminate ].
  rewrite (IH _ _ E). trivial.
Qed.

(** ** Text stays text *)

Lemma lstrip_by_scalar p s : Forall is_scalar s -> Forall is_scalar (lstrip_by p s).
Proof.
  induction 1 as [ | c s Hc Hs IH ]; simpl; [ constructor | ].
  destruct (p c); [ exact IH | now constructor ].
Qed.

Lemma rstrip_by_scalar p s : Forall is_scalar s -> Forall is_scalar (rstrip_by p s).
Proof.
  induction 1 as [ | c s Hc Hs IH ]; [ constructor | ].
  change (rstrip_by p (c :: s))
    with (match rstrip_by p s with
          | [] => if p c then [] else [c]
          | _ => c :: rstrip_by p s
          end).
  destruct (rstrip_by p s) as [ | x t ]; [ | now constructor ].
  destruct (p c); [ constructor | ]. constructor; [ exact Hc | constructor ].
Qed.

Lemma strip_scalar s : Forall is_scalar s -> Forall is_scalar (strip s).
Proof. intros H. now apply rstrip_by_scalar, lstrip_by_scalar. Qed.

Lemma ascii_scalar s : Forall (fun c => 0 <= c < 128) s -> Forall is_scalar s.
Proof. intros H. eapply Forall_impl; [ exact H | ]. unfold is_scalar. intros; lia. Qed.

(** A literal of the source is text, by inspection of its characters. *)
Ltac literal_scalar :=
  apply ascii_scalar; cbv - [Z.le Z.lt];
  repeat match goal with |- Forall _ _ => constructor end; lia.

Lemma getenv_scalar w name dflt :
  env_text w -> Forall is_scalar dflt -> Forall is_scalar (getenv w name dflt).
Proof.
  intros Hw Hd. unfold getenv. destruct (environ w !! name) eqn:E; simpl; [ | exact Hd ].
  eapply Hw, E.
Qed.

Lemma var_scalar w name : env_text w -> Forall is_scalar (strip (getenv w name (lit ""))).
Proof. intros Hw. apply strip_scalar, getenv_scalar; [ exact Hw | constructor ]. Qed.

Lemma hex_digit_ascii n : 0 <= n < 16 -> 48 <= hex_digit n < 128.
Proof. intros H. unfold hex_digit. destruct (Z.ltb_spec n 10); lia. Qed.

Lemma escape_char_scalar c : is_scalar c -> Forall is_scalar (escape_char false c).
Proof.
  intros Hc. unfold escape_char.
  repeat match goal with
         | |- context [ ?x =? ?y ] => destruct (Z.eqb_spec x y); [ literal_scalar | ]
         end.
  destruct (Z.ltb_spec c 32); cbn [andb];
    [ | constructor; [ exact Hc | constructor ] ].
  apply ascii_scalar. unfold u_escape, hex4_lower.
  change (lit "\u") with [92; 117]. cbn [app].
  repeat match goal with |- Forall _ _ => constructor end; try lia.
  all: match goal with
       | |- _ <= hex_digit ?n < _ =>
           pose proof (hex_digit_ascii n ltac:(div_lia)); lia
       end.
Qed.

Lemma encode_basestring_scalar s :
  Forall is_scalar s -> Forall is_scalar (encode_basestring false s).
Proof.
  intros H. unfold encode_basestring. apply Forall_app. split; [ literal_scalar | ].
  apply Forall_app. split; [ | literal_scalar ].
  induction H as [ | c s Hc _ IH ]; simpl; [ constructor | ].
  apply Forall_app. split; [ now apply escape_char_scalar | exact IH ].
Qed.

(** ** The serialised payload *)

Lemma sorted_payload (ts name email resume repo act : pystr) :
  sorted_items
    (dict_of_pairs [ (lit "timestamp", ts); (lit "name", name); (lit "email", email);
                     (lit "resume_link", resume); (lit "repository_link", repo);
                     (lit "action_run_link", act) ])
  = [ (lit "action_run_link", act); (lit "email", email); (lit "name", name);
      (lit "repository_link", repo); (lit "resume_link", resume);
      (lit "timestamp", ts) ].
Proof. reflexivity. Qed.

(** The call in [main] yields the canonical form. *)
Lemma json_dumps_canonical ts name email resume repo act :
  json_dumps (lit ",") (lit ":") true false
    (dict_of_pairs [ (lit "timestamp", ts); (lit "name", name); (lit "email", email);
                     (lit "resume_link", resume); (lit "repository_link", repo);
                     (lit "action_run_link", act) ])
  = canonical_body ts name email resume repo act.
Proof.
  unfold json_dumps. rewrite sorted_payload.
  unfold canonical_body, encode_basestring. cbn [map fst snd join].
  rewrite <- !app_assoc. reflexivity.
Qed.

Lemma canonical_body_scalar ts name email resume repo act :
  Forall is_scalar ts -> Forall is_scalar name -> Forall is_scalar email ->
  Forall is_scalar resume -> Forall is_scalar repo -> Forall is_scalar act ->
  Forall is_scalar (canonical_body ts name email resume repo act).
Proof.
  intros. unfold canonical_body. rewrite !Forall_app.
  repeat split; first [ now apply encode_basestring_scalar | literal_scalar ].
Qed.

(** ** The payload reads back *)

Lemma hex_val_hex_digit n : 0 <= n < 16 -> hex_val (hex_digit n) = Some n.
Proof.
  intros H. unfold hex_val, hex_digit. destruct (Z.ltb_spec n 10).
  - rewrite in_range_true by lia. f_equal. lia.
  - rewrite in_range_false, in_range_true by lia. f_equal. lia.
Qed.

Lemma hex4_hex4_lower c rest : 0 <= c < 65536 -> hex4 (hex4_lower c ++ rest) = Some c.
Proof.
  intros H. unfold hex4_lower, hex4. cbn [app].
  rewrite !hex_val_hex_digit by div_lia. f_equal. div_lia.
Qed.

(** Reading an escaped character gives the character back. *)
Lemma scan_escape_char c rest :
  0 <= c ->
  scan_string O (escape_char false c ++ rest)
  = prod_map (cons c) id <$> scan_string O rest.
Proof.
  intros Hc. unfold escape_char.
  repeat match goal with
         | |- context [ if ?x =? ?y then _ else _ ] =>
             destruct (Z.eqb_spec x y); [ subst; reflexivity | ]
         end.
  destruct (Z.ltb_spec c 32) as [ Hlt | Hge ]; cbn [andb].
  - unfold u_escape. change (lit "\u") with [92; 117]. cbn [app scan_string].
    change (92 =? 34) with false. change (92 =? 92) with true.
    change (117 =? 117) with true. cbv iota.
    rewrite hex4_hex4_lower by lia.
    unfold low_surrogate_after. rewrite in_range_false by lia.
    unfold hex4_lower. cbn [app scan_string]. reflexivity.
  - cbn [app scan_string].
    rewrite (proj2 (Z.eqb_neq c 34)), (proj2 (Z.eqb_neq c 92)) by assumption.
    destruct (Z.ltb_spec c 32); [ lia | reflexivity ].
Qed.

(** Reading an encoded string gives the string back. *)
Lemma scan_encoded s : forall rest,
  Forall (fun c => 0 <= c) s ->
  scan_string O (flat_map (escape_char false) s ++ 34 :: rest) = Some (s, rest).
Proof.
  induction s as [ | c s IH ]; intros rest Hs; [ reflexivity | ].
  inversion Hs as [ | ? ? Hc Hs' ]; subst.
  cbn [flat_map]. rewrite <- app_assoc, scan_escape_char by exact Hc.
  rewrite (IH rest Hs'). reflexivity.
Qed.

Lemma plain_unescaped s : Forall is_plain s -> flat_map (escape_char false) s = s.
Proof.
  induction 1 as [ | c s (H32 & H34 & H92) _ IH ]; [ reflexivity | ].
  cbn [flat_map]. rewrite IH. unfold escape_char.
  repeat match goal with
         | |- context [ if ?x =? ?y then _ else _ ] =>
             destruct (Z.eqb_spec x y); [ lia | ]
         end.
  destruct (Z.ltb_spec c 32); [ lia | reflexivity ].
Qed.

Lemma plain_nonneg s : Forall is_plain s -> Forall (fun c => 0 <= c) s.
Proof. intros H. eapply Forall_impl; [ exact H | ]. unfold is_plain. intros; lia. Qed.

Lemma encode_basestring_cons s rest :
  encode_basestring false s ++ rest = 34 :: flat_map (escape_char false) s ++ 34 :: rest.
Proof. unfold encode_basestring. cbn [app]. now rewrite <- app_assoc. Qed.

Lemma skip_ws_head c t : is_json_ws c = false -> skip_ws (c :: t) = c :: t.
Proof. intros H. unfold skip_ws. cbn [lstrip_by]. now rewrite H. Qed.

Lemma parse_value_string f s rest :
  Forall (fun c => 0 <= c) s ->
  parse_value (S f) (encode_basestring false s ++ rest) = Ok (VStr s) rest.
Proof.
  intros Hs. rewrite encode_basestring_cons. cbn [parse_value].
  change (34 =? 34) with true. cbv iota. now rewrite scan_encoded.
Qed.

Lemma parse_members_unfold f t :
  parse_members (S f) (34 :: t)
  = match scan_string O t with
    | None => Invalid
    | Some (key, r) =>
        match skip_ws r with
        | c1 :: r1 =>
            if c1 =? 58 then
              parsed_bind (parse_value f (skip_ws r1)) (fun v r2 =>
                match skip_ws r2 with
                | c2 :: r3 =>
                    if c2 =? 125 then Ok [(key, v)] r3
                    else if c2 =? 44 then
                      parsed_bind (parse_members f (skip_ws r3))
                                  (fun ps r4 => Ok ((key, v) :: ps) r4)
                    else Invalid
                | [] => Invalid
                end)
            else Invalid
        | [] => Invalid
        end
    end.
Proof. reflexivity. Qed.

Section Members.
Variables (key v : pystr).
Hypothesis key_plain : Forall is_plain key.
Hypothesis v_text : Forall (fun c => 0 <= c) v.

Lemma scan_key rest : scan_string O (key ++ 34 :: rest) = Some (key, rest).
Proof.
  rewrite <- (plain_unescaped key key_plain) at 1.
  apply scan_encoded, plain_nonneg, key_plain.
Qed.

(** A member that is followed by another one. *)
Lemma parse_member_more f rest ps r :
  parse_members f (34 :: rest) = Ok ps r ->
  parse_members (S f) (34 :: key ++ [34; 58] ++ encode_basestring false v ++ 44 :: 34 :: rest)
  = Ok ((key, VStr v) :: ps) r.
Proof.
  intros Hrest. destruct f as [ | f ]; [ discriminate | ].
  rewrite parse_members_unfold. cbn [app]. rewrite scan_key.
  rewrite skip_ws_head by reflexivity. change (58 =? 58) with true. cbv iota.
  rewrite encode_basestring_cons, skip_ws_head by reflexivity.
  rewrite <- encode_basestring_cons, parse_value_string by exact v_text.
  cbn [parsed_bind]. rewrite skip_ws_head by reflexivity.
  change (44 =? 125) with false. change (44 =? 44) with true. cbv iota.
  rewrite skip_ws_head by reflexivity. rewrite Hrest. reflexivity.
Qed.

(** The last member, followed by the closing brace. *)
Lemma parse_member_last f rest :
  parse_members (S (S f)) (34 :: key ++ [34; 58] ++ encode_basestring false v ++ 125 :: rest)
  = Ok [(key, VStr v)] rest.
Proof.
  rewrite parse_members_unfold. cbn [app]. rewrite scan_key.
  rewrite skip_ws_head by reflexivity. change (58 =? 58) with true. cbv iota.
  rewrite encode_basestring_cons, skip_ws_head by reflexivity.
  rewrite <- encode_basestring_cons, parse_value_string by exact v_text.
  cbn [parsed_bind]. rewrite skip_ws_head by reflexivity.
  change (125 =? 125) with true. reflexivity.
Qed.

End Members.

Lemma json_loads_head c t :
  c <> 0xFEFF ->
  json_loads (c :: t)
  = match parse_value (2 * length (c :: t) + 1) (skip_ws (c :: t)) with
    | Ok v r => match skip_ws r with [] => Loaded v | _ => DecodeError end
    | Invalid => DecodeError
    | NoFuel => Exhausted
    end.
Proof.
  intros Hc. unfold json_loads.
  repeat (case_match; try reflexivity); exfalso; subst; now apply Hc.
Qed.

Lemma parse_value_object f t :
  parse_value (S f) (123 :: 34 :: t)
  = parsed_bind (parse_members f (34 :: t))
                (fun ps r => Ok (VDict (dict_of_pairs ps)) r).
Proof. reflexivity. Qed.

(** A key of the payload is plain, by inspection of its characters. *)
Ltac literal_plain :=
  cbv - [Z.le Z.lt];
  repeat match goal with |- Forall _ _ => constructor end; lia.

(** The canonical text is JSON for the object with the six members. *)
Lemma canonical_body_loads ts name email resume repo act :
  Forall (fun c => 0 <= c) ts -> Forall (fun c => 0 <= c) name ->
  Forall (fun c => 0 <= c) email -> Forall (fun c => 0 <= c) resume ->
  Forall (fun c => 0 <= c) repo -> Forall (fun c => 0 <= c) act ->
  json_loads (canonical_body ts name email resume repo act)
  = Loaded (payload_object ts name email resume repo act).
Proof.
  intros Hts Hname Hemail Hresume Hrepo Hact.
  assert (Hshape :
    canonical_body ts name email resume repo act
    = 123 :: 34 :: lit "action_run_link" ++ [34; 58] ++ encode_basestring false act
        ++ 44 :: 34 :: lit "email" ++ [34; 58] ++ encode_basestring false email
        ++ 44 :: 34 :: lit "name" ++ [34; 58] ++ encode_basestring false name
        ++ 44 :: 34 :: lit "repository_link" ++ [34; 58] ++ encode_basestring false repo
        ++ 44 :: 34 :: lit "resume_link" ++ [34; 58] ++ encode_basestring false resume
        ++ 44 :: 34 :: lit "timestamp" ++ [34; 58] ++ encode_basestring false ts
        ++ 125 :: []) by reflexivity.
  rewrite Hshape. rewrite json_loads_head by discriminate.
  rewrite skip_ws_head by reflexivity.
  remember (2 * length _ + 1)%nat as fuel eqn:Hfuel.
  assert (Hbig : (8 <= fuel)%nat) by (rewrite Hfuel; simpl length; lia).
  clear Hfuel.
  do 8 (destruct fuel as [ | fuel ]; [ lia | ]). clear Hbig.
  rewrite parse_value_object.
  pose proof (parse_member_last (lit "timestamp") ts ltac:(literal_plain) Hts fuel []) as P.
  apply (parse_member_more (lit "resume_link") resume ltac:(literal_plain) Hresume) in P.
  apply (parse_member_more (lit "repository_link") repo ltac:(literal_plain) Hrepo) in P.
  apply (parse_member_more (lit "name") name ltac:(literal_plain) Hname) in P.
  apply (parse_member_more (lit "email") email ltac:(literal_plain) Hemail) in P.
  apply (parse_member_more (lit "action_run_link") act ltac:(literal_plain) Hact) in P.
  rewrite P. reflexivity.
Qed.

(** ** Resolution of the configuration *)

Lemma not_set w name : ~ is_set w name <-> var w name = [].
Proof.
  unfold is_set, var. destruct (strip _) as [ | c t ]; split; intros H.
  - reflexivity.
  - intros Hn. now apply Hn.
  - exfalso. apply H. discriminate.
  - discriminate.
Qed.

Lemma required_env_set w name s :
  is_set w name -> required_env w name s = (s, Normal (var w name)).
Proof.
  intros H. apply str_truthy_nonempty in H. unfold required_env. now rewrite H.
Qed.

Lemma required_env_unset w name s :
  ~ is_set w name -> required_env w name s = (add_err s (missing name), SystemExit 2).
Proof. intros H. apply required_env_blank. now apply not_set. Qed.

Lemma is_set_dec w name : {is_set w name} + {~ is_set w name}.
Proof.
  unfold is_set. destruct (strip (getenv w name (lit ""))); [ right | left ]; congruence.
Qed.

Section Repository_link.
Variable w : world.
Variable s : streams.

Lemma repo_override :
  is_set w "B12_REPOSITORY_LINK" ->
  repository_link_expr w s = (s, Normal (var w "B12_REPOSITORY_LINK")).
Proof.
  intros H. apply str_truthy_nonempty in H.
  unfold repository_link_expr, or_else. now rewrite H.
Qed.

Lemma repo_default :
  ~ is_set w "B12_REPOSITORY_LINK" -> repository_link_expr w s = github_repo_link w s.
Proof.
  intros H. apply not_set, str_truthy_empty in H.
  unfold repository_link_expr, or_else. unfold var in H. now rewrite H.
Qed.

Lemma repo_derived :
  is_set w "GITHUB_REPOSITORY" ->
  github_repo_link w s = (s, Normal (server_url w ++ lit "/" ++ var w "GITHUB_REPOSITORY")).
Proof.
  intros H. apply str_truthy_nonempty in H.
  unfold github_repo_link. cbv zeta. now rewrite H.
Qed.

Lemma repo_fallback :
  ~ is_set w "GITHUB_REPOSITORY" ->
  github_repo_link w s = required_env w "REPOSITORY_LINK" s.
Proof.
  intros H. apply not_set, str_truthy_empty in H.
  unfold github_repo_link. cbv zeta. unfold var in H. now rewrite H.
Qed.

End Repository_link.

Lemma server_url_scalar w : env_text w -> Forall is_scalar (server_url w).
Proof.
  intros Hw. apply rstrip_by_scalar, getenv_scalar; [ exact Hw | literal_scalar ].
Qed.

(** With one of its three sources, the repository link resolves, to text
    when the environment is text. *)
Lemma repository_link_found w :
  is_set w "B12_REPOSITORY_LINK" \/ is_set w "GITHUB_REPOSITORY" \/ is_set w "REPOSITORY_LINK" ->
  exists v, (forall s, repository_link_expr w s = (s, Normal v))
            /\ (env_text w -> Forall is_scalar v).
Proof.
  intros H.
  destruct (is_set_dec w "B12_REPOSITORY_LINK") as [ Ho | Ho ].
  { eexists. split; [ intros s; now apply repo_override | ]. apply var_scalar. }
  destruct (is_set_dec w "GITHUB_REPOSITORY") as [ Hg | Hg ].
  { eexists. split; [ intros s; rewrite repo_default by exact Ho; now apply repo_derived | ].
    intros Hw. rewrite !Forall_app. repeat split.
    - now apply server_url_scalar.
    - literal_scalar.
    - now apply var_scalar. }
  destruct H as [ H | [ H | H ] ]; try contradiction.
  eexists. split; [ | apply var_scalar ].
  intros s. rewrite repo_default, repo_fallback by assumption. now apply required_env_set.
Qed.

Lemma action_run_link_found w :
  is_set w "B12_ACTION_RUN_LINK"
  \/ (is_set w "GITHUB_REPOSITORY" /\ is_set w "GITHUB_RUN_ID")
  \/ is_set w "ACTION_RUN_LINK" ->
  exists v, (forall s, action_run_link_expr w s = (s, Normal v))
            /\ (env_text w -> Forall is_scalar v).
Proof.
  intros H. unfold action_run_link_expr, or_else, github_action_run_link. cbv zeta.
  fold (var w "B12_ACTION_RUN_LINK") (var w "GITHUB_REPOSITORY") (var w "GITHUB_RUN_ID")
       (server_url w).
  destruct (str_truthy (var w "B12_ACTION_RUN_LINK")) eqn:Eo.
  { eexists. split; [ reflexivity | ]. apply var_scalar. }
  destruct (str_truthy (var w "GITHUB_REPOSITORY") && str_truthy (var w "GITHUB_RUN_ID")) eqn:Eg.
  { eexists. split; [ reflexivity | ].
    intros Hw. rewrite !Forall_app. repeat split;
      first [ now apply server_url_scalar | now apply var_scalar | literal_scalar ]. }
  assert (Hf : is_set w "ACTION_RUN_LINK").
  { apply str_truthy_empty in Eo. apply andb_false_iff in Eg.
    destruct H as [ H | [ [ H1 H2 ] | H ] ]; [ | | exact H ].
    - now apply not_set in Eo.
    - destruct Eg as [ E | E ]; apply str_truthy_empty, not_set in E; contradiction. }
  eexists. split; [ | apply var_scalar ].
  intros s. now apply required_env_set.
Qed.

Lemma timestamp_scalar w : datetime_valid (utcnow w) -> Forall is_scalar (iso8601_utc_now_ms w).
Proof.
  intros Hv. destruct (isoformat_ms_pattern _ Hv) as (_ & _ & Hs & _).
  unfold iso8601_utc_now_ms. rewrite timestamp_replace by exact Hv.
  apply Forall_app. split; [ exact Hs | literal_scalar ].
Qed.

Lemma body_str_canonical w c :
  body_str_of w c
  = canonical_body (iso8601_utc_now_ms w) (lit "Luciano Almenares") (cfg_email c)
      (lit "https://www.linkedin.com/in/luciano-almenares/")
      (cfg_repository_link c) (cfg_action_run_link c).
Proof. apply json_dumps_canonical. Qed.

Lemma scalar_nonneg s : Forall is_scalar s -> Forall (fun c => 0 <= c) s.
Proof. intros H. eapply Forall_impl; [ exact H | ]. unfold is_scalar. intros; lia. Qed.

(** A valid configuration resolves to text, and its payload has a UTF-8
    form. *)
Lemma config_valid_request w :
  config_valid w ->
  exists c body_bytes,
    resolve w = Some c
    /\ utf8_encode (body_str_of w c) = Some body_bytes
    /\ request_of w = Some (request_for body_bytes)
    /\ Forall is_scalar (cfg_email c)
    /\ Forall is_scalar (cfg_repository_link c)
    /\ Forall is_scalar (cfg_action_run_link c).
Proof.
  intros (He & Hr & Ha & Hw & Hd).
  destruct (repository_link_found w Hr) as (repo & Hrepo & Srepo).
  destruct (action_run_link_found w Ha) as (act & Hact & Sact).
  assert (Hc : resolve w = Some (Config (var w "B12_EMAIL") repo act)).
  { unfold resolve, value_of. rewrite (required_env_set w _ _ He). cbn [mbind option_bind].
    fold (repository_link_expr w) (action_run_link_expr w).
    rewrite Hrepo. cbn [mbind option_bind]. now rewrite Hact. }
  destruct (utf8_encode_scalar (body_str_of w (Config (var w "B12_EMAIL") repo act)))
    as [ bb Hb ].
  { rewrite body_str_canonical. cbn [cfg_email cfg_repository_link cfg_action_run_link].
    apply canonical_body_scalar; auto.
    - now apply timestamp_scalar.
    - literal_scalar.
    - now apply var_scalar.
    - literal_scalar. }
  exists (Config (var w "B12_EMAIL") repo act), bb.
  cbn [cfg_email cfg_repository_link cfg_action_run_link].
  split; [ exact Hc | ]. split; [ exact Hb | ].
  split; [ unfold request_of; rewrite Hc; cbn [mbind option_bind]; now rewrite Hb | ].
  split; [ now apply var_scalar | ]. split; auto.
Qed.

Lemma sorted_keys w c : map fst (sorted_items (payload_of w c)) = payload_keys.
Proof. unfold payload_of. now rewrite sorted_payload. Qed.

Lemma request_of_resolve w req :
  request_of w = Some req ->
  exists c, resolve w = Some c /\ utf8_encode (body_str_of w c) = Some (req_data req)
            /\ req = request_for (req_data req).
Proof.
  unfold request_of. destruct (resolve w) as [ c | ]; [ | discriminate ].
  cbn [mbind option_bind].
  destruct (utf8_encode (body_str_of w c)) as [ b | ] eqn:Eb; [ | discriminate ].
  cbn [mbind option_bind]. intros H. inversion H. subst req.
  change (req_data (request_for b)) with b.
  exists c. split; [ reflexivity | ]. split; [ exact Eb | reflexivity ].
Qed.

(** The facts about one run that the paths share are brought together and
    the impossible paths are closed. *)
Ltac one_request :=
  repeat match goal with
         | H1 : request_of ?w = Some _, H2 : request_of ?w = Some _ |- _ =>
             rewrite H1 in H2; simplify_eq
         | H1 : request_of ?w = Some _, H2 : resolve ?w = None |- _ =>
             apply request_of_resolve in H1 as (? & ? & _); congruence
         | H1 : request_of ?w = Some _, H2 : resolve ?w = Some ?c,
           H3 : utf8_encode (body_str_of ?w ?c) = None |- _ =>
             unfold request_of in H1; rewrite H2 in H1;
             cbn [mbind option_bind] in H1; rewrite H3 in H1; discriminate
         | H1 : server ?w ?r = _, H2 : server ?w ?r = _ |- _ =>
             rewrite H1 in H2; simplify_eq
         | H1 : utf8_decode ?e ?b = _, H2 : utf8_decode ?e ?b = _ |- _ =>
             rewrite H1 in H2; simplify_eq
         | H1 : json_loads ?t = _, H2 : json_loads ?t = _ |- _ =>
             rewrite H1 in H2; simplify_eq
         end.

Ltac paths w :=
  let P := fresh "P" in
  let o := fresh "o" in
  let Eo := fresh "Eo" in
  pose proof (run_path w) as P;
  remember (run w) as o eqn:Eo; clear Eo;
  destruct P; one_request; try lia; try congruence;
  try solve [ match goal with
              | H : writable _ = false |- _ => vm_compute in H; discriminate H
              end ].

Lemma run_unresolved w :
  resolve w = None ->
  exists name, run w = Outcome 2 (Streams [] [missing name] []).
Proof.
  intros H. pose proof (run_path w) as P. destruct P;
    try (match goal with
         | Hr : request_of _ = Some _ |- _ =>
             apply request_of_resolve in Hr as (? & ? & _)
         end); try congruence.
  now eexists.
Qed.

Lemma example_world_valid r : config_valid (example_world r).
Proof.
  unfold config_valid, is_set.
  split; [ vm_compute; discriminate | ].
  split; [ right; left; vm_compute; discriminate | ].
  split; [ right; left; split; vm_compute; discriminate | ].
  split; [ | unfold datetime_valid; simpl; lia ].
  intros name v H. cbn [environ example_world] in H. unfold example_environ in H.
  repeat (apply lookup_insert_Some in H as [ [ _ <- ] | [ _ H ] ]; [ literal_scalar | ]).
  now rewrite lookup_empty in H.
Qed.

(** C1: with a valid configuration the script sends exactly one request,
    whose body is the UTF-8 form of the canonical text of the payload.  The
    bytes decode back to that text, and the text is JSON for an object with
    exactly the six members [action_run_link], [email], [name],
    [repository_link], [resume_link] and [timestamp], in this strictly
    ascending order of their keys; the members are separated by single
    commas and the keys are followed by single colons, with no white space
    between the tokens; and inside the strings every character from U+0080
    on stands for itself. *)
Theorem payload_is_canonical (w : world) :
  config_valid w ->
  exists c body_bytes,
    resolve w = Some c
    /\ posted (final (run w)) = [request_for body_bytes]
    /\ utf8_encode (body_str_of w c) = Some body_bytes
    /\ utf8_decode Strict body_bytes = Some (body_str_of w c)
    /\ body_str_of w c
       = canonical_body (iso8601_utc_now_ms w) (lit "Luciano Almenares") (cfg_email c)
           (lit "https://www.linkedin.com/in/luciano-almenares/")
           (cfg_repository_link c) (cfg_action_run_link c)
    /\ json_loads (body_str_of w c)
       = Loaded (payload_object (iso8601_utc_now_ms w) (lit "Luciano Almenares")
                   (cfg_email c) (lit "https://www.linkedin.com/in/luciano-almenares/")
                   (cfg_repository_link c) (cfg_action_run_link c))
    /\ map fst (sorted_items (payload_of w c)) = payload_keys
    /\ ascending payload_keys = true
    /\ forall ch, 128 <= ch -> escape_char false ch = [ch].
Proof.
  intros Hv.
  destruct (config_valid_request w Hv) as (c & bb & Hc & Hb & Hr & Se & Sr & Sa).
  assert (Sts : Forall is_scalar (iso8601_utc_now_ms w)).
  { apply timestamp_scalar. apply Hv. }
  exists c, bb.
  split; [ exact Hc | ].
  split; [ rewrite posted_request, Hr; reflexivity | ].
  split; [ exact Hb | ].
  split; [ now apply utf8_decode_encode | ].
  split; [ apply body_str_canonical | ].
  split.
  { rewrite body_str_canonical.
    apply canonical_body_loads; apply scalar_nonneg; try assumption; literal_scalar. }
  split; [ apply sorted_keys | ].
  split; [ reflexivity | ].
  intros ch Hch. unfold escape_char.
  repeat match goal with
         | |- context [ ?x =? ?y ] => destruct (Z.eqb_spec x y); [ lia | ]
         end.
  destruct (Z.ltb_spec ch 32); [ lia | reflexivity ].
Qed.

Lemma payload_is_canonical_witness :
  exists c body_bytes,
    resolve (example_world (Failed [])) = Some c
    /\ posted (final (run (example_world (Failed [])))) = [request_for body_bytes].
Proof.
  destruct (payload_is_canonical (example_world (Failed [])))
    as (c & bb & Hc & Hp & _).
  - apply example_world_valid.
  - exists c, bb. split; assumption.
Defined.

Example payload_example :
  utf8_decode Strict
    (req_data (default (request_for []) (request_of (example_world (Failed [])))))
  = Some (qlit "{'action_run_link':'https://github.com/owner/repo/actions/runs/42','email':'me@example.com','name':'Luciano Almenares','repository_link':'https://github.com/owner/repo','resume_link':'https://www.linkedin.com/in/luciano-almenares/','timestamp':'2026-01-02T03:04:05.678Z'}").
Proof. vm_compute. reflexivity. Qed.

(** ** The repository link *)

Lemma resolve_repository_link w c s :
  resolve w = Some c -> repository_link_expr w s = (s, Normal (cfg_repository_link c)).
Proof.
  unfold resolve, value_of. fold (repository_link_expr w) (action_run_link_expr w).
  destruct (required_env w "B12_EMAIL" _) as [ s1 [ e | | ] ]; try discriminate.
  cbn [mbind option_bind].
  destruct (or_else_step (strip (getenv w "B12_REPOSITORY_LINK" (lit ""))) _
              (github_repo_link_step w)) as [ v _ Hv | n Hn ];
    fold (repository_link_expr w) in *.
  - rewrite (Hv (Streams [] [] [])). cbn [mbind option_bind].
    destruct (action_run_link_expr w _) as [ s3 [ a | | ] ]; try discriminate.
    intros H. inversion H. apply Hv.
  - rewrite (Hn (Streams [] [] [])). discriminate.
Qed.

(** C7: the repository link is the override [B12_REPOSITORY_LINK] when that
    is set and not blank; otherwise the CI server address, a slash and the
    slug [GITHUB_REPOSITORY] when the slug is set and not blank; otherwise
    the fallback [REPOSITORY_LINK] when that is set and not blank; and with
    none of the three the script reports [REPOSITORY_LINK] as missing and
    the process ends with status 2 without sending anything.  The value so
    found is the one stored under [repository_link] in the payload. *)
Theorem repository_link_resolution (w : world) (s : streams) :
  (is_set w "B12_REPOSITORY_LINK" ->
   repository_link_expr w s = (s, Normal (var w "B12_REPOSITORY_LINK")))
  /\ (~ is_set w "B12_REPOSITORY_LINK" -> is_set w "GITHUB_REPOSITORY" ->
      repository_link_expr w s
      = (s, Normal (server_url w ++ lit "/" ++ var w "GITHUB_REPOSITORY")))
  /\ (~ is_set w "B12_REPOSITORY_LINK" -> ~ is_set w "GITHUB_REPOSITORY" ->
      is_set w "REPOSITORY_LINK" ->
      repository_link_expr w s = (s, Normal (var w "REPOSITORY_LINK")))
  /\ (~ is_set w "B12_REPOSITORY_LINK" -> ~ is_set w "GITHUB_REPOSITORY" ->
      ~ is_set w "REPOSITORY_LINK" ->
      repository_link_expr w s = (add_err s (missing "REPOSITORY_LINK"), SystemExit 2)
      /\ exit_status (run w) = 2
      /\ posted (final (run w)) = [])
  /\ (forall c, resolve w = Some c ->
      repository_link_expr w s = (s, Normal (cfg_repository_link c))
      /\ dict_get (payload_of w c) (lit "repository_link") = Some (cfg_repository_link c)).
Proof.
  split; [ apply repo_override | ].
  split; [ intros Ho Hg; rewrite repo_default by exact Ho; now apply repo_derived | ].
  split; [ intros Ho Hg Hf; rewrite repo_default, repo_fallback by assumption;
           now apply required_env_set | ].
  split.
  - intros Ho Hg Hf.
    assert (Hfail : forall s', repository_link_expr w s'
                               = (add_err s' (missing "REPOSITORY_LINK"), SystemExit 2)).
    { intros s'. rewrite repo_default, repo_fallback by assumption.
      now apply required_env_unset. }
    split; [ apply Hfail | ].
    assert (Hnone : resolve w = None).
    { destruct (resolve w) as [ c | ] eqn:Ec; [ | reflexivity ].
      pose proof (resolve_repository_link w c (Streams [] [] []) Ec) as H.
      rewrite Hfail in H. discriminate. }
    destruct (run_unresolved w Hnone) as [ name Hrun ]. rewrite Hrun. split; reflexivity.
  - intros c Hc. split; [ now apply resolve_repository_link | reflexivity ].
Qed.

Example repository_link_override :
  value_of (repository_link_expr
              (World (<["B12_REPOSITORY_LINK" := lit " https://example.org/r "]> example_environ)
                     (utcnow (example_world (Failed []))) (fun _ => Failed [])))
  = Some (lit "https://example.org/r").
Proof. vm_compute. reflexivity. Qed.

Example repository_link_derived :
  value_of (repository_link_expr
              (World (<["GITHUB_SERVER_URL" := lit "https://git.example.org//"]>
                        (<["REPOSITORY_LINK" := lit "https://example.org/f"]> example_environ))
                     (utcnow (example_world (Failed []))) (fun _ => Failed [])))
  = Some (lit "https://git.example.org/owner/repo").
Proof. vm_compute. reflexivity. Qed.

Example repository_link_fallback :
  value_of (repository_link_expr
              (World (<["REPOSITORY_LINK" := lit "https://example.org/f"]>
                        (<["GITHUB_REPOSITORY" := lit "  "]> example_environ))
                     (utcnow (example_world (Failed []))) (fun _ => Failed [])))
  = Some (lit "https://example.org/f").
Proof. vm_compute. reflexivity. Qed.

Example repository_link_missing :
  run (World (<["B12_EMAIL" := lit "me@example.com"]> ∅)
             (utcnow (example_world (Failed []))) (fun _ => Failed []))
  = Outcome 2 (Streams [] [Line (lit "Missing required environment variable: REPOSITORY_LINK")] []).
Proof. vm_compute. reflexivity. Qed.

(** ** The response *)

Lemma success_body_decodes :
  utf8_decode Strict success_body = Some (qlit "{'success': true, 'receipt': 'abc123'}").
Proof. vm_compute. reflexivity. Qed.

Lemma success_body_loads :
  json_loads (qlit "{'success': true, 'receipt': 'abc123'}")
  = Loaded (VDict [ (lit "success", VBool true); (lit "receipt", VStr (lit "abc123")) ]).
Proof. vm_compute. reflexivity. Qed.

(** C5: with a valid configuration and an endpoint that answers with status
    200 and the body [{"success": true, "receipt": "abc123"}], the process
    ends with status 0, the standard output receives the one string
    [abc123], shown as that text and a newline, and the error stream stays
    empty. *)
Theorem receipt_is_printed (w : world) :
  config_valid w ->
  (forall req, server w req = Responded 200 success_body) ->
  exit_status (run w) = 0
  /\ stdout (final (run w)) = [VStr (lit "abc123")]
  /\ stdout_text (stdout (final (run w))) = Some (lit "abc123" ++ [10])
  /\ stderr (final (run w)) = [].
Proof.
  intros Hv Hs. destruct (config_valid_request w Hv) as (c & bb & _ & _ & Hr & _).
  specialize (Hs (request_for bb)).
  pose proof success_body_decodes as Hd. pose proof success_body_loads as Hj.
  paths w. repeat split.
Qed.

Lemma receipt_is_printed_witness :
  exit_status (run (example_world (Responded 200 success_body))) = 0.
Proof.
  apply (receipt_is_printed (example_world (Responded 200 success_body))).
  - apply example_world_valid.
  - intros req. reflexivity.
Defined.

(** C6: when the script has sent its request and the endpoint answers with
    status 500, the process ends with status 1 and the error stream holds
    one line, [HTTPError 500: ] followed by the body, decoded as UTF-8 with
    replacement of what is ill-formed (so, for a well-formed body, by its
    text); nothing is printed on the standard output. *)
Theorem http_500_exits_1 (w : world) (req : request) (body : bytes) :
  posted (final (run w)) = [req] ->
  server w req = Responded 500 body ->
  exists text,
    utf8_decode Replace body = Some text
    /\ run w = Outcome 1 (Streams [] [Line (lit "HTTPError 500: " ++ text)] [req])
    /\ (forall t, utf8_decode Strict body = Some t -> text = t).
Proof.
  intros Hp Hs. apply posted_request_of in Hp.
  paths w.
  exists text. split; [ assumption | ]. split; [ reflexivity | ].
  intros t Ht. apply utf8_decode_strict_replace in Ht. unfold utf8_decode in *. congruence.
Qed.

Lemma http_500_exits_1_witness :
  exists text,
    run (example_world (Responded 500 (ascii_bytes "Internal Server Error")))
    = Outcome 1 (Streams [] [Line (lit "HTTPError 500: " ++ text)]
                   (posted (final (run (example_world
                      (Responded 500 (ascii_bytes "Internal Server Error"))))))).
Proof.
  set (w := example_world (Responded 500 (ascii_bytes "Internal Server Error"))).
  destruct (posted (final (run w))) as [ | req [ | ] ] eqn:Ep; try (vm_compute in Ep; discriminate).
  destruct (http_500_exits_1 w req (ascii_bytes "Internal Server Error") Ep eq_refl)
    as (text & _ & Hrun & _).
  exists text. exact Hrun.
Defined.

(** C9: when the script has sent its request and the endpoint answers with
    a status from 200 to 299 other than 200, the process ends with status 1
    after one line on the error stream, whatever the body is: [HTTP], the
    status and the body when the body is well-formed UTF-8, and the report
    of a failed request otherwise.  Nothing is printed on the standard
    output, and the body is not looked into. *)
Theorem other_success_status_exits_1 (w : world) (req : request) (st : Z) (body : bytes) :
  posted (final (run w)) = [req] ->
  server w req = Responded st body ->
  200 <= st < 300 -> st <> 200 ->
  run w = Outcome 1 (Streams []
            [ match utf8_decode Strict body with
              | Some text => Line (lit "HTTP " ++ str_int st ++ lit ": " ++ text)
              | None => LineExc (lit "Request failed: ") UnicodeDecodeError
              end ] [req]).
Proof.
  intros Hp Hs Hst Hne. apply posted_request_of in Hp.
  paths w;
    match goal with H : utf8_decode Strict _ = _ |- _ => rewrite H end; reflexivity.
Qed.

Lemma other_success_status_exits_1_witness :
  exit_status (run (example_world (Responded 201 success_body))) = 1.
Proof.
  set (w := example_world (Responded 201 success_body)).
  destruct (posted (final (run w))) as [ | req [ | ] ] eqn:Ep; try (vm_compute in Ep; discriminate).
  rewrite (other_success_status_exits_1 w req 201 success_body Ep eq_refl); [ reflexivity | lia | lia ].
Defined.

Example created_with_receipt_is_an_error :
  let o := run (example_world (Responded 201 success_body)) in
  exit_status o = 1
  /\ stdout (final o) = []
  /\ stderr (final o)
     = [Line (qlit "HTTP 201: {'success': true, 'receipt': 'abc123'}")].
Proof. vm_compute. repeat split. Qed.

(** Every object but a string with a surrogate code point can be written. *)
Lemma writable_spec (v : value) :
  writable v = true <-> forall s, v = VStr s -> Forall is_scalar s.
Proof.
  split.
  - intros Hw s ->. cbn [writable] in Hw.
    destruct (utf8_encode s) as [ b | ] eqn:Eb; [ | discriminate ].
    eapply utf8_encode_is_scalar, Eb.
  - intros Hs. destruct v; try reflexivity. cbn [writable].
    destruct (utf8_encode_scalar s (Hs s eq_refl)) as [ b -> ]. reflexivity.
Qed.

(** C10: when the script has sent its request and the endpoint answers with
    status 200 and a body that is a JSON object whose [success] and
    [receipt] members are both truthy, whatever their types, and the
    receipt is one that the standard output can write (any object but a
    string that holds a surrogate code point), the process ends with status
    0, having printed the [receipt] object and nothing else. *)
Theorem truthy_receipt_is_printed (w : world) (req : request) (body : bytes)
    (text : pystr) (d : list (pystr * value)) :
  posted (final (run w)) = [req] ->
  server w req = Responded 200 body ->
  utf8_decode Strict body = Some text ->
  json_loads text = Loaded (VDict d) ->
  truthy (field d "success") = true ->
  truthy (field d "receipt") = true ->
  (forall s, field d "receipt" = VStr s -> Forall is_scalar s) ->
  run w = Outcome 0 (Streams [field d "receipt"] [] [req]).
Proof.
  intros Hp Hs Hd Hj Hsucc Hrec Hw. apply posted_request_of in Hp.
  apply writable_spec in Hw.
  paths w; try reflexivity.
  rewrite Hsucc, Hrec in *. discriminate.
Qed.

(** C10, as it was stated, fails: the endpoint answers with status 200 and
    an object whose [success] is [true] and whose [receipt] is the
    non-empty string of the one code point U+D800.  Both members are
    truthy, yet nothing is printed: the standard output refuses the string,
    and the process ends with status 1 on the uncaught exception. *)
Lemma surrogate_receipt_is_not_printed :
  let w := example_world (Responded 200 surrogate_body) in
  let d := [ (lit "success", VBool true); (lit "receipt", VStr [0xD800]) ] in
  exists req,
    posted (final (run w)) = [req]
    /\ server w req = Responded 200 surrogate_body
    /\ utf8_decode Strict surrogate_body = Some surrogate_body
    /\ json_loads surrogate_body = Loaded (VDict d)
    /\ truthy (field d "success") = true
    /\ truthy (field d "receipt") = true
    /\ run w = Outcome 1 (Streams [] [Traceback UnicodeEncodeError] [req])
    /\ run w <> Outcome 0 (Streams [field d "receipt"] [] [req]).
Proof.
  intros w d.
  destruct (posted (final (run w))) as [ | req [ | ] ] eqn:Ep;
    try (vm_compute in Ep; discriminate).
  exists req.
  assert (Hrun : run w = Outcome 1 (Streams [] [Traceback UnicodeEncodeError] [req])).
  { rewrite <- Ep. vm_compute. reflexivity. }
  split; [ reflexivity | ]. split; [ reflexivity | ].
  split; [ vm_compute; reflexivity | ]. split; [ vm_compute; reflexivity | ].
  split; [ reflexivity | ]. split; [ reflexivity | ].
  split; [ exact Hrun | ]. rewrite Hrun. discriminate.
Qed.

Lemma truthy_receipt_is_printed_witness :
  stdout (final (run (example_world (Responded 200 (qlit "{'success': 'yes', 'receipt': 7}")))))
  = [VInt 7].
Proof.
  set (w := example_world (Responded 200 (qlit "{'success': 'yes', 'receipt': 7}"))).
  destruct (posted (final (run w))) as [ | req [ | ] ] eqn:Ep; try (vm_compute in Ep; discriminate).
  rewrite (truthy_receipt_is_printed w req (qlit "{'success': 'yes', 'receipt': 7}")
             (qlit "{'success': 'yes', 'receipt': 7}")
             [ (lit "success", VStr (lit "yes")); (lit "receipt", VInt 7) ] Ep);
    try reflexivity; try (vm_compute; reflexivity).
  intros s Hs. vm_compute in Hs. discriminate Hs.
Defined.

Example number_receipt_is_printed :
  let o := run (example_world (Responded 200 (qlit "{'receipt': [0], 'success': 1.5e0}"))) in
  exit_status o = 0 /\ stdout (final o) = [VList [VInt 0]] /\ stderr (final o) = [].
Proof. vm_compute. repeat split. Qed.

(** X13: a JSON object without a truthy [success] or without a truthy
    [receipt] (a member that is absent, [null], [false], zero, or an empty
    string, array or object) is reported with the raw body on the error
    stream, and the process ends with status 1. *)
Lemma incomplete_object_is_reported (w : world) (req : request) (body : bytes)
    (text : pystr) (d : list (pystr * value)) :
  posted (final (run w)) = [req] ->
  server w req = Responded 200 body ->
  utf8_decode Strict body = Some text ->
  json_loads text = Loaded (VDict d) ->
  truthy (field d "success") = false \/ truthy (field d "receipt") = false ->
  run w = Outcome 1 (Streams [] [Line (lit "Unexpected response: " ++ text)] [req]).
Proof.
  intros Hp Hs Hd Hj Hf. apply posted_request_of in Hp.
  paths w; try reflexivity;
    match goal with H : _ && _ = true |- _ => apply andb_true_iff in H as [ H1 H2 ] end;
    destruct Hf; congruence.
Qed.

(** X14: JSON that is not an object ends the process by an uncaught
    [AttributeError]: the error stream receives the interpreter's report,
    not the body, and the status is 1. *)
Lemma non_object_raises (w : world) (req : request) (body : bytes)
    (text : pystr) (v : value) :
  posted (final (run w)) = [req] ->
  server w req = Responded 200 body ->
  utf8_decode Strict body = Some text ->
  json_loads text = Loaded v ->
  (forall d, v <> VDict d) ->
  run w = Outcome 1 (Streams [] [Traceback AttributeError] [req]).
Proof.
  intros Hp Hs Hd Hj Hv. apply posted_request_of in Hp.
  paths w; try reflexivity; exfalso; eapply Hv; reflexivity.
Qed.

Example success_false_exits_1 :
  let o := run (example_world (Responded 200 (qlit "{'success': false}"))) in
  exit_status o = 1
  /\ stdout (final o) = []
  /\ stderr (final o) = [Line (qlit "Unexpected response: {'success': false}")].
Proof. vm_compute. repeat split. Qed.

(** C3, at the response [[]] with status 200: the body is JSON and has no
    [success] member, yet the error stream does not receive the body; the
    process ends by an uncaught [AttributeError], with status 1. *)
Theorem non_object_response_is_not_reported :
  let o := run (example_world (Responded 200 (ascii_bytes "[]"))) in
  json_loads (lit "[]") = Loaded (VList [])
  /\ exit_status o = 1
  /\ stdout (final o) = []
  /\ stderr (final o) = [Traceback AttributeError]
  /\ Forall (fun l => line_contains (lit "[]") l = false) (stderr (final o)).
Proof. vm_compute. repeat split. repeat constructor. Qed.

(** ** The signature *)

Lemma word_bytes_length x : length (SHA256.word_bytes x) = 4%nat.
Proof. reflexivity. Qed.

Lemma word_bytes_range x : Forall (fun b => 0 <= b < 256) (SHA256.word_bytes x).
Proof.
  unfold SHA256.word_bytes.
  repeat match goal with |- Forall _ _ => constructor end;
    apply Z.mod_pos_bound; lia.
Qed.

(** A SHA-256 digest is 32 octets. *)
Lemma sha256_digest_shape msg :
  length (SHA256.digest msg) = 32%nat
  /\ Forall (fun b => 0 <= b < 256) (SHA256.digest msg).
Proof.
  unfold SHA256.digest. cbv zeta. split.
  - rewrite !length_app, !word_bytes_length. reflexivity.
  - rewrite !Forall_app. repeat split; apply word_bytes_range.
Qed.

Lemma hmac_digest_shape key msg :
  length (HMAC.digest key msg) = 32%nat
  /\ Forall (fun b => 0 <= b < 256) (HMAC.digest key msg).
Proof. unfold HMAC.digest. cbv zeta. apply sha256_digest_shape. Qed.

Lemma hex_digit_lower n : 0 <= n < 16 -> is_lower_hex (hex_digit n) = true.
Proof.
  intros H. unfold is_lower_hex, hex_digit.
  destruct (Z.ltb_spec n 10).
  - rewrite in_range_true by lia. reflexivity.
  - rewrite (in_range_true 97 102) by lia. apply orb_true_r.
Qed.

(** The hexadecimal form has two lower-case digits per octet. *)
Lemma hex_shape bs :
  Forall (fun b => 0 <= b < 256) bs ->
  length (hex bs) = (2 * length bs)%nat /\ forallb is_lower_hex (hex bs) = true.
Proof.
  induction 1 as [ | b bs Hb _ [ IHl IHf ] ]; [ split; reflexivity | ].
  unfold hex in *. cbn [flat_map app length forallb]. split; [ lia | ].
  rewrite !hex_digit_lower by div_lia. exact IHf.
Qed.

Lemma signature_header body_bytes :
  dict_get (req_headers (request_for body_bytes)) (lit "X-Signature-256")
  = Some (signature_of body_bytes).
Proof. reflexivity. Qed.

(** C2: the signature a run sends is the text [sha256=] followed by the
    HMAC-SHA256 of the body under the fixed secret, written as 64 lower-case
    hexadecimal digits; it is a function of the body alone, so two runs that
    serialise the same bytes send the same signature. *)
Theorem signature_is_reproducible (w1 w2 : world) (r1 r2 : request) :
  posted (final (run w1)) = [r1] ->
  posted (final (run w2)) = [r2] ->
  let header r := dict_get (req_headers r) (lit "X-Signature-256") in
  let digest := HMAC.digest secret_key (req_data r1) in
  utf8_encode SIGNING_SECRET = Some secret_key
  /\ header r1 = Some (lit "sha256=" ++ hex digest)
  /\ length (hex digest) = 64%nat
  /\ forallb is_lower_hex (hex digest) = true
  /\ (req_data r1 = req_data r2 -> header r1 = header r2).
Proof.
  intros H1 H2 header digest.
  apply posted_request_of, request_of_resolve in H1 as (_ & _ & _ & E1).
  apply posted_request_of, request_of_resolve in H2 as (_ & _ & _ & E2).
  destruct (hmac_digest_shape secret_key (req_data r1)) as [ Hlen Hrange ].
  destruct (hex_shape _ Hrange) as [ Hhl Hhf ].
  split; [ exact encode_secret | ].
  split; [ unfold header; rewrite E1; apply signature_header | ].
  split; [ unfold digest; rewrite Hhl, Hlen; reflexivity | ].
  split; [ exact Hhf | ].
  intros Hsame. unfold header. rewrite E1, E2, !signature_header.
  change (req_data (request_for (req_data r1))) with (req_data r1).
  change (req_data (request_for (req_data r2))) with (req_data r2).
  now rewrite Hsame.
Qed.

Lemma signature_is_reproducible_witness :
  exists r,
    posted (final (run (example_world (Failed [])))) = [r]
    /\ dict_get (req_headers r) (lit "X-Signature-256")
       = Some (lit "sha256=" ++ hex (HMAC.digest secret_key (req_data r))).
Proof.
  set (w := example_world (Failed [])).
  destruct (posted (final (run w))) as [ | req [ | ] ] eqn:Ep; try (vm_compute in Ep; discriminate).
  exists req. split; [ reflexivity | ].
  apply (signature_is_reproducible w w req req Ep Ep).
Defined.

Example signature_example :
  signature_of (req_data (default (request_for []) (request_of (example_world (Failed [])))))
  = lit "sha256=7272b40789298b6ad2c09ed551e90efd8204d4c8d51449f8034bf6ace89f5ca7".
Proof. vm_compute. reflexivity. Qed.

(** ** The library models on known inputs *)

Example strip_example :
  strip [0x1C; 32; 0x85; 0xA0; 32; 120; 0x200B; 0x3000; 0x1F] = [120; 0x200B].
Proof. reflexivity. Qed.

Example rstrip_example :
  rstrip (lit "/") (lit "https://git.example.org//") = lit "https://git.example.org".
Proof. vm_compute. reflexivity. Qed.

Example replace_example :
  replace (lit "aa") (lit "b") (lit "aaaxaa") = lit "baxb".
Proof. vm_compute. reflexivity. Qed.

Example utf8_encode_example :
  utf8_encode [0x24; 0xE9; 0x20AC; 0x1F600] = Some [0x24; 0xC3; 0xA9; 0xE2; 0x82; 0xAC; 0xF0; 0x9F; 0x98; 0x80]
  /\ utf8_encode [0xDCFF] = None.
Proof. split; reflexivity. Qed.

Example utf8_replace_example :
  utf8_decode Replace [0xE2; 0x82; 0x41; 0xE0; 0x80; 0xF0; 0x90; 0xFF; 0xC3]
  = Some [0xFFFD; 0x41; 0xFFFD; 0xFFFD; 0xFFFD; 0xFFFD; 0xFFFD]
  /\ utf8_decode Strict [0xE2; 0x82; 0x41] = None
  /\ utf8_decode Strict [0xED; 0xA0; 0x80] = None.
Proof. repeat split; reflexivity. Qed.

Example escape_example :
  encode_basestring false [0x7F; 0x1F; 0x2028; 0xE9; 0x1F600; 34; 92; 8]
  = [34; 0x7F] ++ lit "\u001f" ++ [0x2028; 0xE9; 0x1F600; 92; 34; 92; 92] ++ lit "\b" ++ [34]
  /\ encode_basestring true [0x7F; 0xE9; 0x1F600]
     = [34] ++ lit "\u007f\u00e9\ud83d\ude00" ++ [34].
Proof. split; vm_compute; reflexivity. Qed.

Example json_loads_examples :
  json_loads (qlit " [1, -0, 2.50e-3, 'a\u00e9\ud83d\ude00\n', null, {'a':{}, 'a': [ ]}, NaN, -Infinity, 1E5] ")
  = Loaded (VList [ VInt 1; VInt 0; VFloat (FDec false 250 (-5));
                    VStr [97; 0xE9; 0x1F600; 10]; VNone; VDict [(lit "a", VList [])];
                    VFloat FNaN; VFloat (FInf true); VFloat (FDec false 1 5) ])
  /\ json_loads (lit "[1,]") = DecodeError
  /\ json_loads (lit "01") = DecodeError
  /\ json_loads (lit "1.e5") = DecodeError
  /\ json_loads (lit "not json") = DecodeError.
Proof. repeat split; vm_compute; reflexivity. Qed.

Example truthy_examples :
  truthy (VFloat (FDec false 1 (-400))) = false
  /\ truthy (VFloat (FDec false 49 (-325))) = true
  /\ truthy (VFloat (FDec true 0 (-1))) = false
  /\ truthy (VFloat FNaN) = true
  /\ truthy (VStr []) = false
  /\ truthy (VStr (lit " ")) = true
  /\ truthy (VInt 0) = false
  /\ truthy (VList []) = false.
Proof. repeat split; vm_compute; reflexivity. Qed.

Example non_json_response_exits_1 :
  let o := run (example_world (Responded 200 (ascii_bytes "not json"))) in
  exit_status o = 1
  /\ stdout (final o) = []
  /\ stderr (final o) = [Line (lit "Non-JSON response: not json")].
Proof. vm_compute. repeat split. Qed.

Example network_failure_exits_1 :
  let o := run (example_world (Failed (lit "timed out"))) in
  exit_status o = 1
  /\ stderr (final o) = [LineExc (lit "Request failed: ") (RequestError (lit "timed out"))].
Proof. vm_compute. repeat split. Qed.

(** * The rest of the script *)

(** ** Trimming *)

Lemma lstrip_by_head p s c t : lstrip_by p s = c :: t -> p c = false.
Proof.
  induction s as [ | x s IH ]; simpl; [ discriminate | ].
  destruct (p x) eqn:E; [ exact IH | ]. intros H. inversion H. now subst.
Qed.

(** What [rstrip_by] removes is a run of matching characters at the end,
    and what it leaves does not end with one. *)
Lemma rstrip_by_spec p s :
  exists suffix,
    s = rstrip_by p s ++ suffix
    /\ Forall (fun c => p c = true) suffix
    /\ (forall c t, rstrip_by p s = t ++ [c] -> p c = false).
Proof.
  induction s as [ | x s (suffix & Hs & Hp & Hl) ].
  - exists []. repeat split; [ constructor | ]. intros c [ | ? ? ]; discriminate.
  - change (rstrip_by p (x :: s))
      with (match rstrip_by p s with
            | [] => if p x then [] else [x]
            | _ => x :: rstrip_by p s
            end).
    destruct (rstrip_by p s) as [ | y r ] eqn:Er.
    + destruct (p x) eqn:Ex.
      * exists (x :: suffix). simpl in Hs. subst s. repeat split.
        -- now constructor.
        -- intros c [ | ? ? ]; discriminate.
      * exists suffix. simpl in Hs. subst s. repeat split; [ exact Hp | ].
        intros c [ | ? [ | ? ? ] ] H; inversion H. now subst.
    + exists suffix. split; [ simpl; now rewrite Hs at 1 | ]. split; [ exact Hp | ].
      intros c [ | z t ] H; [ discriminate | ].
      inversion H; subst. now apply (Hl c t).
Qed.

Lemma strip_is_trimmed s : is_trimmed (strip s).
Proof.
  unfold strip. destruct (rstrip_by_spec py_isspace (lstrip_by py_isspace s))
    as (suffix & Hs & _ & Hl).
  split; [ | exact Hl ].
  intros c t Hc. rewrite Hc in Hs. simpl in Hs. now apply lstrip_by_head in Hs.
Qed.

(** X2: [required_env] either returns the value of the variable without the
    white space around it, which is then not empty and trimmed, leaving the
    streams as they are; or, when the variable is unset or blank, it writes
    the one line that names the variable on the error stream and leaves with
    status 2. *)
Theorem required_env_trimmed_or_exit (w : world) (name : string) (s : streams) :
  (is_set w name
   /\ required_env w name s = (s, Normal (var w name))
   /\ is_trimmed (var w name))
  \/ (~ is_set w name
      /\ required_env w name s
         = (Streams (stdout s)
              (stderr s ++ [Line (lit "Missing required environment variable: " ++ lit name)])
              (posted s),
            SystemExit 2)).
Proof.
  destruct (is_set_dec w name) as [ H | H ]; [ left | right ].
  - split; [ exact H | ]. split; [ now apply required_env_set | apply strip_is_trimmed ].
  - split; [ exact H | ]. now apply required_env_unset.
Qed.

Example required_env_examples :
  value_of (required_env (World (<["V" := [9; 32; 0xA0; 120; 32; 121; 10]]> ∅)
                                (utcnow (example_world (Failed []))) (fun _ => Failed [])) "V")
  = Some [120; 32; 121]
  /\ value_of (required_env (World (<["V" := [9; 32; 0xA0]]> ∅)
                                   (utcnow (example_world (Failed []))) (fun _ => Failed [])) "V")
     = None.
Proof. split; vm_compute; reflexivity. Qed.

(** ** The link to the run *)

Section Action_run_link.
Variable w : world.
Variable s : streams.

Lemma action_override :
  is_set w "B12_ACTION_RUN_LINK" ->
  action_run_link_expr w s = (s, Normal (var w "B12_ACTION_RUN_LINK")).
Proof.
  intros H. apply str_truthy_nonempty in H.
  unfold action_run_link_expr, or_else. now rewrite H.
Qed.

Lemma action_default :
  ~ is_set w "B12_ACTION_RUN_LINK" ->
  action_run_link_expr w s = github_action_run_link w s.
Proof.
  intros H. apply not_set, str_truthy_empty in H.
  unfold action_run_link_expr, or_else. unfold var in H. now rewrite H.
Qed.

Lemma action_derived :
  is_set w "GITHUB_REPOSITORY" -> is_set w "GITHUB_RUN_ID" ->
  github_action_run_link w s
  = (s, Normal (server_url w ++ lit "/" ++ var w "GITHUB_REPOSITORY"
                  ++ lit "/actions/runs/" ++ var w "GITHUB_RUN_ID")).
Proof.
  intros H1 H2. apply str_truthy_nonempty in H1, H2.
  unfold github_action_run_link. cbv zeta. now rewrite H1, H2.
Qed.

Lemma action_fallback :
  ~ (is_set w "GITHUB_REPOSITORY" /\ is_set w "GITHUB_RUN_ID") ->
  github_action_run_link w s = required_env w "ACTION_RUN_LINK" s.
Proof.
  intros H. unfold github_action_run_link. cbv zeta.
  destruct (str_truthy (strip (getenv w "GITHUB_REPOSITORY" (lit "")))) eqn:E1;
    [ | reflexivity ].
  destruct (str_truthy (strip (getenv w "GITHUB_RUN_ID" (lit "")))) eqn:E2;
    [ | reflexivity ].
  exfalso. apply H. split; now apply str_truthy_nonempty.
Qed.

End Action_run_link.

Lemma resolve_action_run_link w c s :
  resolve w = Some c -> action_run_link_expr w s = (s, Normal (cfg_action_run_link c)).
Proof.
  unfold resolve, value_of. fold (repository_link_expr w) (action_run_link_expr w).
  destruct (required_env w "B12_EMAIL" _) as [ s1 [ e | | ] ]; try discriminate.
  cbn [mbind option_bind].
  destruct (repository_link_expr w _) as [ s2 [ r | | ] ]; try discriminate.
  cbn [mbind option_bind].
  destruct (or_else_step (strip (getenv w "B12_ACTION_RUN_LINK" (lit ""))) _
              (github_action_run_link_step w)) as [ v _ Hv | n Hn ];
    fold (action_run_link_expr w) in *.
  - rewrite (Hv (Streams [] [] [])). intros H. inversion H. apply Hv.
  - rewrite (Hn (Streams [] [] [])). discriminate.
Qed.

(** X1: the link to the run is the override [B12_ACTION_RUN_LINK] when that
    is set and not blank; otherwise, when both the slug [GITHUB_REPOSITORY]
    and [GITHUB_RUN_ID] are set and not blank, the server address, the slug,
    [/actions/runs/] and the run id; otherwise the fallback
    [ACTION_RUN_LINK]; and with none of these the script reports
    [ACTION_RUN_LINK] as missing and the process ends with status 2 without
    sending anything.  A slug without a run id does not count.  The value
    found is the one stored under [action_run_link] in the payload. *)
Theorem action_run_link_resolution (w : world) (s : streams) :
  (is_set w "B12_ACTION_RUN_LINK" ->
   action_run_link_expr w s = (s, Normal (var w "B12_ACTION_RUN_LINK")))
  /\ (~ is_set w "B12_ACTION_RUN_LINK" ->
      is_set w "GITHUB_REPOSITORY" -> is_set w "GITHUB_RUN_ID" ->
      action_run_link_expr w s
      = (s, Normal (server_url w ++ lit "/" ++ var w "GITHUB_REPOSITORY"
                      ++ lit "/actions/runs/" ++ var w "GITHUB_RUN_ID")))
  /\ (~ is_set w "B12_ACTION_RUN_LINK" ->
      ~ (is_set w "GITHUB_REPOSITORY" /\ is_set w "GITHUB_RUN_ID") ->
      is_set w "ACTION_RUN_LINK" ->
      action_run_link_expr w s = (s, Normal (var w "ACTION_RUN_LINK")))
  /\ (~ is_set w "B12_ACTION_RUN_LINK" ->
      ~ (is_set w "GITHUB_REPOSITORY" /\ is_set w "GITHUB_RUN_ID") ->
      ~ is_set w "ACTION_RUN_LINK" ->
      action_run_link_expr w s = (add_err s (missing "ACTION_RUN_LINK"), SystemExit 2)
      /\ exit_status (run w) = 2
      /\ posted (final (run w)) = [])
  /\ (forall c, resolve w = Some c ->
      action_run_link_expr w s = (s, Normal (cfg_action_run_link c))
      /\ dict_get (payload_of w c) (lit "action_run_link") = Some (cfg_action_run_link c)).
Proof.
  split; [ apply action_override | ].
  split; [ intros Ho Hg Hi; rewrite action_default by exact Ho; now apply action_derived | ].
  split; [ intros Ho Hg Hf; rewrite action_default, action_fallback by assumption;
           now apply required_env_set | ].
  split.
  - intros Ho Hg Hf.
    assert (Hfail : forall s', action_run_link_expr w s'
                               = (add_err s' (missing "ACTION_RUN_LINK"), SystemExit 2)).
    { intros s'. rewrite action_default, action_fallback by assumption.
      now apply required_env_unset. }
    split; [ apply Hfail | ].
    assert (Hnone : resolve w = None).
    { destruct (resolve w) as [ c | ] eqn:Ec; [ | reflexivity ].
      pose proof (resolve_action_run_link w c (Streams [] [] []) Ec) as H.
      rewrite Hfail in H. discriminate. }
    destruct (run_unresolved w Hnone) as [ name Hrun ]. rewrite Hrun. split; reflexivity.
  - intros c Hc. split; [ now apply resolve_action_run_link | reflexivity ].
Qed.

Example action_run_link_without_run_id :
  value_of (action_run_link_expr
              (World (<["GITHUB_REPOSITORY" := lit "owner/repo"]>
                        (<["ACTION_RUN_LINK" := lit "https://ci.example.org/7"]> ∅))
                     (utcnow (example_world (Failed []))) (fun _ => Failed [])))
  = Some (lit "https://ci.example.org/7").
Proof. vm_compute. reflexivity. Qed.

(** X15: in a CI run without overrides, the link to the run is the
    repository link followed by [/actions/runs/] and the run id. *)
Theorem derived_links_compose (w : world) (c : config) :
  ~ is_set w "B12_REPOSITORY_LINK" -> ~ is_set w "B12_ACTION_RUN_LINK" ->
  is_set w "GITHUB_REPOSITORY" -> is_set w "GITHUB_RUN_ID" ->
  resolve w = Some c ->
  cfg_action_run_link c
  = cfg_repository_link c ++ lit "/actions/runs/" ++ var w "GITHUB_RUN_ID".
Proof.
  intros Hr Ha Hg Hi Hc.
  pose proof (resolve_repository_link w c (Streams [] [] []) Hc) as Er.
  pose proof (resolve_action_run_link w c (Streams [] [] []) Hc) as Ea.
  rewrite repo_default, repo_derived in Er by assumption.
  rewrite action_default, action_derived in Ea by assumption.
  inversion Er as [ Er' ]. inversion Ea as [ Ea' ].
  now rewrite <- !app_assoc.
Qed.

Lemma derived_links_compose_witness :
  exists c,
    resolve (example_world (Failed [])) = Some c
    /\ cfg_action_run_link c = cfg_repository_link c ++ lit "/actions/runs/42".
Proof.
  destruct (resolve (example_world (Failed []))) as [ c | ] eqn:Ec;
    [ | vm_compute in Ec; discriminate ].
  exists c. split; [ reflexivity | ].
  apply (derived_links_compose (example_world (Failed [])) c);
    try (vm_compute; congruence); exact Ec.
Defined.

(** X16: the server address used in the derived links is the value of
    [GITHUB_SERVER_URL] without its trailing slashes, and
    [https://github.com] when the variable is unset: the value is the
    address followed by slashes only, and the address does not end with a
    slash (it is empty when the value holds nothing but slashes). *)
Theorem server_url_has_no_trailing_slash (w : world) :
  (environ w !! "GITHUB_SERVER_URL" = None -> server_url w = lit "https://github.com")
  /\ (exists k, getenv w "GITHUB_SERVER_URL" (lit "https://github.com")
                = server_url w ++ repeat 47 k)
  /\ (forall t, server_url w <> t ++ lit "/").
Proof.
  split.
  - intros H. unfold server_url, getenv. rewrite H. vm_compute. reflexivity.
  - unfold server_url, rstrip.
    destruct (rstrip_by_spec (fun c => bool_decide (c ∈ lit "/"))
                (getenv w "GITHUB_SERVER_URL" (lit "https://github.com")))
      as (suffix & Hs & Hp & Hl).
    split.
    + exists (length suffix).
      assert (Hrep : suffix = repeat 47 (length suffix)).
      { clear Hs Hl. induction Hp as [ | c suffix Hc _ IH ]; [ reflexivity | ].
        apply bool_decide_eq_true in Hc. change (lit "/") with [47] in Hc.
        apply list_elem_of_singleton in Hc. subst c. simpl. now rewrite <- IH. }
      rewrite <- Hrep. exact Hs.
    + intros t Ht. apply Hl in Ht. vm_compute in Ht. discriminate.
Qed.

Example server_url_examples :
  server_url (World (<["GITHUB_SERVER_URL" := lit "https://git.example.org//"]> ∅)
                    (utcnow (example_world (Failed []))) (fun _ => Failed []))
  = lit "https://git.example.org"
  /\ value_of (repository_link_expr
       (World (<["GITHUB_SERVER_URL" := lit "//"]> (<["GITHUB_REPOSITORY" := lit "o/r"]> ∅))
              (utcnow (example_world (Failed []))) (fun _ => Failed [])))
     = Some (lit "/o/r").
Proof. split; vm_compute; reflexivity. Qed.

(** ** Which variable is reported *)

Lemma repository_link_unavailable w s :
  ~ repository_link_available w ->
  repository_link_expr w s = (add_err s (missing "REPOSITORY_LINK"), SystemExit 2).
Proof.
  unfold repository_link_available. intros H.
  rewrite repo_default, repo_fallback by tauto. apply required_env_unset. tauto.
Qed.

Lemma action_run_link_unavailable w s :
  ~ action_run_link_available w ->
  action_run_link_expr w s = (add_err s (missing "ACTION_RUN_LINK"), SystemExit 2).
Proof.
  unfold action_run_link_available. intros H.
  rewrite action_default, action_fallback by tauto. apply required_env_unset. tauto.
Qed.

(** X3: the variables are looked for in the order of [main], and the first
    one that cannot be found is the only one reported: [B12_EMAIL] before
    [REPOSITORY_LINK] before [ACTION_RUN_LINK].  In each case the process
    ends with status 2, one line on the error stream, nothing printed and
    nothing sent. *)
Theorem first_missing_variable_is_reported (w : world) :
  (~ is_set w "B12_EMAIL" ->
   run w = Outcome 2 (Streams [] [missing "B12_EMAIL"] []))
  /\ (is_set w "B12_EMAIL" -> ~ repository_link_available w ->
      run w = Outcome 2 (Streams [] [missing "REPOSITORY_LINK"] []))
  /\ (is_set w "B12_EMAIL" -> repository_link_available w ->
      ~ action_run_link_available w ->
      run w = Outcome 2 (Streams [] [missing "ACTION_RUN_LINK"] [])).
Proof.
  split; [ | split ].
  - intros He. unfold run, main.
    erewrite bind_exit by (now apply required_env_unset). reflexivity.
  - intros He Hr. unfold run, main.
    erewrite bind_normal by (now apply required_env_set). cbv zeta.
    erewrite bind_exit by (now apply repository_link_unavailable). reflexivity.
  - intros He Hr Ha. unfold run, main.
    erewrite bind_normal by (now apply required_env_set). cbv zeta.
    destruct (repository_link_found w Hr) as (repo & Hrepo & _).
    erewrite bind_normal by (apply Hrepo).
    erewrite bind_exit by (now apply action_run_link_unavailable). reflexivity.
Qed.

Example nothing_set_reports_the_email :
  run (World ∅ (utcnow (example_world (Failed []))) (fun _ => Failed []))
  = Outcome 2 (Streams [] [Line (lit "Missing required environment variable: B12_EMAIL")] []).
Proof. vm_compute. reflexivity. Qed.

Example only_email_set_reports_the_repository :
  run (World (<["B12_EMAIL" := lit "me@example.com"]> ∅)
             (utcnow (example_world (Failed []))) (fun _ => Failed []))
  = Outcome 2 (Streams [] [Line (lit "Missing required environment variable: REPOSITORY_LINK")] []).
Proof. vm_compute. reflexivity. Qed.

Example run_id_missing_reports_the_run_link :
  run (World (<["B12_EMAIL" := lit "me@example.com"]>
                (<["GITHUB_REPOSITORY" := lit "owner/repo"]> ∅))
             (utcnow (example_world (Failed []))) (fun _ => Failed []))
  = Outcome 2 (Streams [] [Line (lit "Missing required environment variable: ACTION_RUN_LINK")] []).
Proof. vm_compute. reflexivity. Qed.

(** ** The exit status and the streams *)

Lemma resolve_is_available w c :
  resolve w = Some c ->
  is_set w "B12_EMAIL" /\ repository_link_available w /\ action_run_link_available w.
Proof.
  intros Hc.
  pose proof (resolve_repository_link w c (Streams [] [] []) Hc) as Hr.
  pose proof (resolve_action_run_link w c (Streams [] [] []) Hc) as Ha.
  unfold repository_link_available, action_run_link_available.
  split; [ | split ].
  - destruct (is_set_dec w "B12_EMAIL") as [ H | H ]; [ exact H | ].
    unfold resolve, value_of in Hc.
    rewrite (required_env_unset w _ _ H) in Hc. discriminate.
  - destruct (is_set_dec w "B12_REPOSITORY_LINK"); [ tauto | ].
    destruct (is_set_dec w "GITHUB_REPOSITORY"); [ tauto | ].
    destruct (is_set_dec w "REPOSITORY_LINK"); [ tauto | ].
    rewrite repository_link_unavailable in Hr; [ discriminate | ].
    unfold repository_link_available. tauto.
  - destruct (is_set_dec w "B12_ACTION_RUN_LINK"); [ tauto | ].
    destruct (is_set_dec w "GITHUB_REPOSITORY");
      [ destruct (is_set_dec w "GITHUB_RUN_ID"); [ tauto | ] | ];
      (destruct (is_set_dec w "ACTION_RUN_LINK"); [ tauto | ]);
      (rewrite action_run_link_unavailable in Ha; [ discriminate | ]);
      unfold action_run_link_available; tauto.
Qed.

Lemma available_resolves w :
  is_set w "B12_EMAIL" -> repository_link_available w -> action_run_link_available w ->
  exists c, resolve w = Some c.
Proof.
  intros He Hr Ha.
  destruct (repository_link_found w Hr) as (repo & Hrepo & _).
  destruct (action_run_link_found w Ha) as (act & Hact & _).
  exists (Config (var w "B12_EMAIL") repo act).
  unfold resolve, value_of. rewrite (required_env_set w _ _ He). cbn [mbind option_bind].
  fold (repository_link_expr w) (action_run_link_expr w).
  rewrite Hrepo. cbn [mbind option_bind]. now rewrite Hact.
Qed.

(** X4: the exit status is 0, 1 or 2, and it is 2 exactly when the
    configuration is incomplete: [B12_EMAIL] is unset or blank, or one of
    the two links has none of its sources.  In that case nothing is sent. *)
Theorem exit_status_taxonomy (w : world) :
  (exit_status (run w) = 0 \/ exit_status (run w) = 1 \/ exit_status (run w) = 2)
  /\ (exit_status (run w) = 2
      <-> ~ (is_set w "B12_EMAIL" /\ repository_link_available w
             /\ action_run_link_available w))
  /\ (exit_status (run w) = 2 -> posted (final (run w)) = []).
Proof.
  assert (Hiff : exit_status (run w) = 2 <-> resolve w = None).
  { split.
    - intros H2. pose proof (run_path w) as P. destruct (run w) as [ st fin ].
      cbn [exit_status] in H2. subst st.
      inversion P; subst; assumption.
    - intros Hn. destruct (run_unresolved w Hn) as [ name -> ]. reflexivity. }
  split; [ | split ].
  - pose proof (run_path w) as P. destruct P; cbn [exit_status]; tauto.
  - rewrite Hiff. split.
    + intros Hn (He & Hr & Ha). destruct (available_resolves w He Hr Ha) as [ c Hc ].
      congruence.
    + intros Hn. destruct (resolve w) as [ c | ] eqn:Ec; [ | reflexivity ].
      exfalso. apply Hn. eapply resolve_is_available, Ec.
  - intros H2. apply Hiff in H2. destruct (run_unresolved w H2) as [ name -> ]. reflexivity.
Qed.

(** X5: a run writes exactly one line: either the receipt on the standard
    output, with status 0 and nothing on the error stream, or one report on
    the error stream, with a status other than 0 and nothing on the standard
    output.  It sends at most one request. *)
Theorem one_line_per_run (w : world) :
  ((exit_status (run w) = 0
    /\ (exists v, stdout (final (run w)) = [v]) /\ stderr (final (run w)) = [])
   \/ (exit_status (run w) <> 0
       /\ stdout (final (run w)) = [] /\ exists l, stderr (final (run w)) = [l]))
  /\ (length (posted (final (run w))) <= 1)%nat.
Proof.
  pose proof (run_path w) as P.
  destruct P; cbn [exit_status final stdout stderr posted length];
    (split; [ | lia ]);
    first [ left; split; [ reflexivity | ]; split; [ now eexists | reflexivity ]
          | right; split; [ discriminate | ]; split; [ reflexivity | now eexists ] ].
Qed.



(** ** The request *)

(** X7: whatever request a run sends goes to the fixed endpoint by [POST]
    with a timeout of 30 seconds and exactly two headers, the content type
    [application/json] and the signature of the body that is sent. *)
Theorem request_shape (w : world) (req : request) :
  posted (final (run w)) = [req] ->
  req_url req = lit "https://b12.io/apply/submission"
  /\ req_method req = lit "POST"
  /\ req_timeout req = 30
  /\ req_headers req
     = [ (lit "Content-Type", lit "application/json");
         (lit "X-Signature-256",
          lit "sha256=" ++ hex (HMAC.digest secret_key (req_data req))) ].
Proof.
  intros Hp. apply posted_request_of, request_of_resolve in Hp as (_ & _ & _ & E).
  rewrite E. change (req_data (request_for (req_data req))) with (req_data req).
  repeat split.
Qed.

Lemma request_shape_witness :
  exists req,
    posted (final (run (example_world (Failed [])))) = [req]
    /\ req_method req = lit "POST" /\ req_timeout req = 30.
Proof.
  set (w := example_world (Failed [])).
  destruct (posted (final (run w))) as [ | req [ | ] ] eqn:Ep; try (vm_compute in Ep; discriminate).
  exists req. split; [ reflexivity | ].
  destruct (request_shape w req Ep) as (_ & Hm & Ht & _). split; assumption.
Defined.

(** ** Failures of the exchange *)

(** X8: when no response is obtained (no connection, a timeout, ...), the
    process ends with status 1 after one line on the error stream,
    [Request failed: ] followed by the text of the exception; the request
    has been handed over once and is not tried again. *)
Theorem request_failure_exits_1 (w : world) (req : request) (detail : pystr) :
  posted (final (run w)) = [req] ->
  server w req = Failed detail ->
  run w = Outcome 1 (Streams []
            [LineExc (lit "Request failed: ") (RequestError detail)] [req]).
Proof.
  intros Hp Hs. apply posted_request_of in Hp. paths w; try reflexivity.
Qed.

Lemma request_failure_exits_1_witness :
  exit_status (run (example_world (Failed (lit "timed out")))) = 1.
Proof.
  set (w := example_world (Failed (lit "timed out"))).
  destruct (posted (final (run w))) as [ | req [ | ] ] eqn:Ep; try (vm_compute in Ep; discriminate).
  now rewrite (request_failure_exits_1 w req (lit "timed out") Ep eq_refl).
Defined.

(** X9: a response with a status from 200 to 299 whose body is not
    well-formed UTF-8 is reported as a failed request, also when the status
    is 200: the process ends with status 1 and the body is not shown. *)
Theorem undecodable_body_exits_1 (w : world) (req : request) (st : Z) (body : bytes) :
  posted (final (run w)) = [req] ->
  server w req = Responded st body ->
  200 <= st < 300 ->
  utf8_decode Strict body = None ->
  run w = Outcome 1 (Streams []
            [LineExc (lit "Request failed: ") UnicodeDecodeError] [req]).
Proof.
  intros Hp Hs Hst Hd. apply posted_request_of in Hp. paths w; try reflexivity.
Qed.

Lemma undecodable_body_exits_1_witness :
  exit_status (run (example_world (Responded 200 [0x7B; 0xFF; 0x7D]))) = 1.
Proof.
  set (w := example_world (Responded 200 [0x7B; 0xFF; 0x7D])).
  destruct (posted (final (run w))) as [ | req [ | ] ] eqn:Ep; try (vm_compute in Ep; discriminate).
  rewrite (undecodable_body_exits_1 w req 200 [0x7B; 0xFF; 0x7D] Ep eq_refl);
    [ reflexivity | lia | reflexivity ].
Defined.

(** X10: a response with status 200 whose body is text but not JSON ends
    the process with status 1 after the one line [Non-JSON response: ]
    followed by the body. *)
Theorem non_json_exits_1 (w : world) (req : request) (body : bytes) (text : pystr) :
  posted (final (run w)) = [req] ->
  server w req = Responded 200 body ->
  utf8_decode Strict body = Some text ->
  json_loads text = DecodeError ->
  run w = Outcome 1 (Streams [] [Line (lit "Non-JSON response: " ++ text)] [req]).
Proof.
  intros Hp Hs Hd Hj. apply posted_request_of in Hp. paths w; try reflexivity.
Qed.

Lemma non_json_exits_1_witness :
  stderr (final (run (example_world (Responded 200 (ascii_bytes "not json")))))
  = [Line (lit "Non-JSON response: not json")].
Proof.
  set (w := example_world (Responded 200 (ascii_bytes "not json"))).
  destruct (posted (final (run w))) as [ | req [ | ] ] eqn:Ep; try (vm_compute in Ep; discriminate).
  rewrite (non_json_exits_1 w req (ascii_bytes "not json") (lit "not json") Ep);
    reflexivity.
Defined.

(** X11: a body that begins with the byte order mark U+FEFF is not taken as
    JSON, whatever follows the mark: the mark is kept by the decoding and
    refused by the reader. *)
Theorem byte_order_mark_is_not_json (w : world) (req : request) (body : bytes)
    (text : pystr) :
  posted (final (run w)) = [req] ->
  server w req = Responded 200 body ->
  utf8_decode Strict body = Some (0xFEFF :: text) ->
  run w = Outcome 1 (Streams []
            [Line (lit "Non-JSON response: " ++ 0xFEFF :: text)] [req]).
Proof.
  intros Hp Hs Hd. apply posted_request_of in Hp.
  assert (Hj : json_loads (0xFEFF :: text) = DecodeError) by reflexivity.
  paths w; try reflexivity.
Qed.

Lemma byte_order_mark_is_not_json_witness :
  exit_status (run (example_world (Responded 200 ([0xEF; 0xBB; 0xBF] ++ success_body)))) = 1.
Proof.
  set (w := example_world (Responded 200 ([0xEF; 0xBB; 0xBF] ++ success_body))).
  destruct (posted (final (run w))) as [ | req [ | ] ] eqn:Ep; try (vm_compute in Ep; discriminate).
  rewrite (byte_order_mark_is_not_json w req ([0xEF; 0xBB; 0xBF] ++ success_body)
             (qlit "{'success': true, 'receipt': 'abc123'}") Ep);
    reflexivity.
Defined.

(** X12: when the response that [urlopen] ends with (the answer to the
    request, or the last answer when [urllib] has followed redirections on
    its own) has a status outside 200..299, the process ends with status 1
    after the one line [HTTPError], the status and the body, decoded as
    UTF-8 with replacement of what is ill-formed (so an ill-formed body is
    still shown, and a well-formed one is shown as it is). *)
Theorem http_error_exits_1 (w : world) (req : request) (st : Z) (body : bytes) :
  posted (final (run w)) = [req] ->
  server w req = Responded st body ->
  st < 200 \/ 300 <= st ->
  exists text,
    utf8_decode Replace body = Some text
    /\ run w = Outcome 1 (Streams []
                 [Line (lit "HTTPError " ++ str_int st ++ lit ": " ++ text)] [req])
    /\ (forall t, utf8_decode Strict body = Some t -> text = t).
Proof.
  intros Hp Hs Hst. apply posted_request_of in Hp.
  paths w.
  exists text. split; [ assumption | ]. split; [ reflexivity | ].
  intros t Ht. apply utf8_decode_strict_replace in Ht. unfold utf8_decode in *. congruence.
Qed.

Lemma http_error_exits_1_witness :
  stderr (final (run (example_world (Responded 404 [0x6E; 0x6F; 0xFF]))))
  = [Line (lit "HTTPError 404: no" ++ [0xFFFD])].
Proof.
  set (w := example_world (Responded 404 [0x6E; 0x6F; 0xFF])).
  destruct (posted (final (run w))) as [ | req [ | ] ] eqn:Ep; try (vm_compute in Ep; discriminate).
  destruct (http_error_exits_1 w req 404 [0x6E; 0x6F; 0xFF] Ep eq_refl ltac:(lia))
    as (text & Ht & Hrun & _).
  rewrite Hrun. vm_compute in Ht. inversion Ht. reflexivity.
Defined.

(** ** What is sent *)

Lemma resolve_email w c : resolve w = Some c -> cfg_email c = var w "B12_EMAIL".
Proof.
  intros Hc. destruct (resolve_is_available w c Hc) as (He & _ & _).
  assert (E : value_of (required_env w "B12_EMAIL") = Some (var w "B12_EMAIL")).
  { unfold value_of. now rewrite required_env_set. }
  unfold resolve in Hc. rewrite E in Hc. cbn [mbind option_bind] in Hc.
  destruct (value_of (or_else _ (github_repo_link w)));
    cbn [mbind option_bind] in Hc; [ | discriminate ].
  destruct (value_of (or_else _ (github_action_run_link w)));
    cbn [mbind option_bind] in Hc; [ | discriminate ].
  now inversion Hc.
Qed.

Lemma config_step_value m v s :
  config_step m -> m s = (s, Normal v) -> v <> [].
Proof.
  intros [ v' Hne Hv | n Hn ] H.
  - rewrite Hv in H. now inversion H; subst.
  - rewrite Hn in H. discriminate.
Qed.

Lemma replace_from_nonempty old new s :
  new <> [] -> s <> [] -> replace_from old new O s <> [].
Proof.
  intros Hn Hs. destruct s as [ | c t ]; [ congruence | ].
  cbn [replace_from]. destruct (is_prefix old (c :: t)); [ | discriminate ].
  destruct new; [ congruence | discriminate ].
Qed.

Lemma timestamp_nonempty w : iso8601_utc_now_ms w <> [].
Proof.
  unfold iso8601_utc_now_ms. change (lit "+00:00") with [43; 48; 48; 58; 48; 48].
  unfold replace. apply replace_from_nonempty; [ discriminate | ].
  unfold isoformat_ms_utc. apply app_nonempty_r. discriminate.
Qed.

(** X17: whatever body a run sends is the serialisation of a payload with
    the six keys of the script, none of whose values is empty; the address
    is the value of [B12_EMAIL] without the white space around it. *)
Theorem sent_fields_are_not_empty (w : world) (req : request) :
  posted (final (run w)) = [req] ->
  exists c,
    resolve w = Some c
    /\ utf8_encode (body_str_of w c) = Some (req_data req)
    /\ map fst (payload_of w c)
       = [ lit "timestamp"; lit "name"; lit "email"; lit "resume_link";
           lit "repository_link"; lit "action_run_link" ]
    /\ Forall (fun kv => snd kv <> []) (payload_of w c)
    /\ cfg_email c = strip (getenv w "B12_EMAIL" (lit ""))
    /\ is_trimmed (cfg_email c).
Proof.
  intros Hp. apply posted_request_of, request_of_resolve in Hp as (c & Hc & Hb & _).
  exists c. split; [ exact Hc | ]. split; [ exact Hb | ]. split; [ reflexivity | ].
  pose proof (resolve_email w c Hc) as He.
  destruct (resolve_is_available w c Hc) as (Hset & _ & _).
  split; [ | split; [ exact He | rewrite He; apply strip_is_trimmed ] ].
  change (payload_of w c)
    with [ (lit "timestamp", iso8601_utc_now_ms w);
           (lit "name", lit "Luciano Almenares");
           (lit "email", cfg_email c);
           (lit "resume_link", lit "https://www.linkedin.com/in/luciano-almenares/");
           (lit "repository_link", cfg_repository_link c);
           (lit "action_run_link", cfg_action_run_link c) ].
  repeat match goal with |- Forall _ _ => constructor end; cbn [snd].
  - apply timestamp_nonempty.
  - discriminate.
  - rewrite He. exact Hset.
  - discriminate.
  - eapply config_step_value;
      [ apply (or_else_step (strip (getenv w "B12_REPOSITORY_LINK" (lit ""))) _
                 (github_repo_link_step w))
      | apply (resolve_repository_link w c (Streams [] [] []) Hc) ].
  - eapply config_step_value;
      [ apply (or_else_step (strip (getenv w "B12_ACTION_RUN_LINK" (lit ""))) _
                 (github_action_run_link_step w))
      | apply (resolve_action_run_link w c (Streams [] [] []) Hc) ].
Qed.

Lemma sent_fields_are_not_empty_witness :
  exists c, resolve (example_world (Failed [])) = Some c
            /\ Forall (fun kv => snd kv <> []) (payload_of (example_world (Failed [])) c).
Proof.
  set (w := example_world (Failed [])).
  destruct (posted (final (run w))) as [ | req [ | ] ] eqn:Ep; try (vm_compute in Ep; discriminate).
  destruct (sent_fields_are_not_empty w req Ep) as (c & Hc & _ & _ & Hf & _).
  exists c. split; assumption.
Defined.

(** X18: the bytes of the body determine the payload: two runs with valid
    configurations that send the same bytes have resolved the same address
    and the same two links, at the same timestamp. *)
Theorem body_determines_payload (w1 w2 : world) :
  config_valid w1 -> config_valid w2 ->
  map req_data (posted (final (run w1))) = map req_data (posted (final (run w2))) ->
  resolve w1 = resolve w2 /\ iso8601_utc_now_ms w1 = iso8601_utc_now_ms w2.
Proof.
  intros Hv1 Hv2 Hsame.
  destruct (config_valid_request w1 Hv1) as (c1 & b1 & Hc1 & Hb1 & Hr1 & Se1 & Sr1 & Sa1).
  destruct (config_valid_request w2 Hv2) as (c2 & b2 & Hc2 & Hb2 & Hr2 & Se2 & Sr2 & Sa2).
  rewrite !posted_request, Hr1, Hr2 in Hsame.
  cbn [map] in Hsame.
  change (req_data (request_for b1)) with b1 in Hsame.
  change (req_data (request_for b2)) with b2 in Hsame.
  assert (Hb : b1 = b2) by (injection Hsame; trivial).
  subst b2. clear Hsame.
  apply utf8_decode_encode in Hb1, Hb2.
  assert (Hbody : Some (body_str_of w1 c1) = Some (body_str_of w2 c2)).
  { rewrite <- Hb1, <- Hb2. reflexivity. }
  apply (inj Some) in Hbody.
  assert (L1 : json_loads (body_str_of w1 c1)
               = Loaded (payload_object (iso8601_utc_now_ms w1) (lit "Luciano Almenares")
                           (cfg_email c1) (lit "https://www.linkedin.com/in/luciano-almenares/")
                           (cfg_repository_link c1) (cfg_action_run_link c1))).
  { rewrite body_str_canonical. apply canonical_body_loads; apply scalar_nonneg;
      first [ assumption | literal_scalar | apply timestamp_scalar; apply Hv1 ]. }
  assert (L2 : json_loads (body_str_of w2 c2)
               = Loaded (payload_object (iso8601_utc_now_ms w2) (lit "Luciano Almenares")
                           (cfg_email c2) (lit "https://www.linkedin.com/in/luciano-almenares/")
                           (cfg_repository_link c2) (cfg_action_run_link c2))).
  { rewrite body_str_canonical. apply canonical_body_loads; apply scalar_nonneg;
      first [ assumption | literal_scalar | apply timestamp_scalar; apply Hv2 ]. }
  rewrite <- Hbody, L1 in L2. unfold payload_object in L2.
  injection L2 as Ha He Hr Hts.
  rewrite Hc1, Hc2. split; [ | assumption ].
  clear - Ha He Hr. destruct c1, c2. simpl in Ha, He, Hr. now subst.
Qed.

Lemma body_determines_payload_witness :
  resolve (example_world (Failed [])) = resolve (example_world (Responded 200 success_body)).
Proof.
  apply (body_determines_payload (example_world (Failed []))
           (example_world (Responded 200 success_body)));
    [ apply example_world_valid | apply example_world_valid | vm_compute; reflexivity ].
Defined.

(** ** The timestamp, read back *)

(** Every field of the instant is read back from its place in the text. *)
Lemma isoformat_ms_fields d :
  datetime_valid d ->
  let s := isoformat_ms d in
  digits_value (take 4 s) = year d
  /\ digits_value (take 2 (drop 5 s)) = month d
  /\ digits_value (take 2 (drop 8 s)) = day d
  /\ digits_value (take 2 (drop 11 s)) = hour d
  /\ digits_value (take 2 (drop 14 s)) = minute d
  /\ digits_value (take 2 (drop 17 s)) = second d
  /\ digits_value (take 3 (drop 20 s)) = microsecond d / 1000.
Proof.
  intros valid s. subst s.
  pose proof (milliseconds_bound d valid) as Hms.
  destruct valid as (Hy & Hmo & Hd & Hh & Hmi & Hs & Hu).
  destruct (fmt_0d_spec 3 (year d)) as (Ly & _ & Vy); [ simpl; lia | ].
  destruct (fmt_0d_spec 1 (month d)) as (Lmo & _ & Vmo); [ simpl; lia | ].
  destruct (fmt_0d_spec 1 (day d)) as (Ld & _ & Vd); [ simpl; lia | ].
  destruct (fmt_0d_spec 1 (hour d)) as (Lh & _ & Vh); [ simpl; lia | ].
  destruct (fmt_0d_spec 1 (minute d)) as (Lmi & _ & Vmi); [ simpl; lia | ].
  destruct (fmt_0d_spec 1 (second d)) as (Ls & _ & Vs); [ simpl; lia | ].
  destruct (fmt_0d_spec 2 (microsecond d / 1000)) as (Lms & _ & Vms); [ simpl; lia | ].
  unfold isoformat_ms.
  generalize dependent (fmt_0d 4 (year d)). intros Y Ly Vy.
  generalize dependent (fmt_0d 2 (month d)). intros Mo Lmo Vmo.
  generalize dependent (fmt_0d 2 (day d)). intros Da Ld Vd.
  generalize dependent (fmt_0d 2 (hour d)). intros Ho Lh Vh.
  generalize dependent (fmt_0d 2 (minute d)). intros Mi Lmi Vmi.
  generalize dependent (fmt_0d 2 (second d)). intros Se Ls Vs.
  generalize dependent (fmt_0d 3 (microsecond d / 1000)). intros Ms Lms Vms.
  destruct Y as [ | y1 [ | y2 [ | y3 [ | y4 [ | ] ] ] ] ]; try discriminate.
  destruct Mo as [ | a1 [ | a2 [ | ] ] ]; try discriminate.
  destruct Da as [ | b1 [ | b2 [ | ] ] ]; try discriminate.
  destruct Ho as [ | c1 [ | c2 [ | ] ] ]; try discriminate.
  destruct Mi as [ | e1 [ | e2 [ | ] ] ]; try discriminate.
  destruct Se as [ | f1 [ | f2 [ | ] ] ]; try discriminate.
  destruct Ms as [ | g1 [ | g2 [ | g3 [ | ] ] ] ]; try discriminate.
  repeat split;
    first [ exact Vy | exact Vmo | exact Vd | exact Vh | exact Vmi | exact Vs | exact Vms ].
Qed.

(** X19: the timestamp keeps the instant to the millisecond and nothing
    more: two clocks give the same timestamp exactly when they agree on the
    date, on the time of day to the second, and on the microseconds divided
    by 1000 and rounded down. *)
Theorem timestamps_agree_to_the_millisecond (w1 w2 : world) :
  datetime_valid (utcnow w1) -> datetime_valid (utcnow w2) ->
  (iso8601_utc_now_ms w1 = iso8601_utc_now_ms w2
   <-> year (utcnow w1) = year (utcnow w2)
       /\ month (utcnow w1) = month (utcnow w2)
       /\ day (utcnow w1) = day (utcnow w2)
       /\ hour (utcnow w1) = hour (utcnow w2)
       /\ minute (utcnow w1) = minute (utcnow w2)
       /\ second (utcnow w1) = second (utcnow w2)
       /\ microsecond (utcnow w1) / 1000 = microsecond (utcnow w2) / 1000).
Proof.
  intros V1 V2. unfold iso8601_utc_now_ms.
  rewrite !timestamp_replace by assumption. split.
  - intros H. apply app_inv_tail in H.
    destruct (isoformat_ms_fields _ V1) as (A1 & A2 & A3 & A4 & A5 & A6 & A7).
    destruct (isoformat_ms_fields _ V2) as (B1 & B2 & B3 & B4 & B5 & B6 & B7).
    rewrite H in A1, A2, A3, A4, A5, A6, A7.
    repeat split; congruence.
  - intros (E1 & E2 & E3 & E4 & E5 & E6 & E7). unfold isoformat_ms.
    now rewrite E1, E2, E3, E4, E5, E6, E7.
Qed.

Lemma timestamps_agree_to_the_millisecond_witness :
  iso8601_utc_now_ms (World ∅ (DateTime 2026 1 2 3 4 5 678001) (fun _ => Failed []))
  = iso8601_utc_now_ms (World ∅ (DateTime 2026 1 2 3 4 5 678999) (fun _ => Failed [])).
Proof.
  apply (timestamps_agree_to_the_millisecond
           (World ∅ (DateTime 2026 1 2 3 4 5 678001) (fun _ => Failed []))
           (World ∅ (DateTime 2026 1 2 3 4 5 678999) (fun _ => Failed [])));
    [ unfold datetime_valid; simpl; lia | unfold datetime_valid; simpl; lia
    | repeat split ].
Defined.

(** ** Objects that are not accepted *)

Lemma incomplete_object_is_reported_witness :
  stderr (final (run (example_world (Responded 200 (qlit "{'success': true, 'receipt': ''}")))))
  = [Line (qlit "Unexpected response: {'success': true, 'receipt': ''}")].
Proof.
  set (w := example_world (Responded 200 (qlit "{'success': true, 'receipt': ''}"))).
  destruct (posted (final (run w))) as [ | req [ | ] ] eqn:Ep; try (vm_compute in Ep; discriminate).
  rewrite (incomplete_object_is_reported w req
             (qlit "{'success': true, 'receipt': ''}")
             (qlit "{'success': true, 'receipt': ''}")
             [ (lit "success", VBool true); (lit "receipt", VStr []) ] Ep);
    try reflexivity.
  right. reflexivity.
Defined.

Lemma non_object_raises_witness :
  stderr (final (run (example_world (Responded 200 (ascii_bytes "null")))))
  = [Traceback AttributeError].
Proof.
  set (w := example_world (Responded 200 (ascii_bytes "null"))).
  destruct (posted (final (run w))) as [ | req [ | ] ] eqn:Ep; try (vm_compute in Ep; discriminate).
  rewrite (non_object_raises w req (ascii_bytes "null") (lit "null") VNone Ep);
    try reflexivity.
  intros d. discriminate.
Defined.

(** ** The receipt on the standard output *)

(** X20: when the accepted response carries as its receipt a string without
    surrogate code points, the standard output shows exactly that string
    followed by a newline. *)
Theorem string_receipt_text (w : world) (req : request) (body : bytes)
    (text : pystr) (d : list (pystr * value)) (receipt : pystr) :
  posted (final (run w)) = [req] ->
  server w req = Responded 200 body ->
  utf8_decode Strict body = Some text ->
  json_loads text = Loaded (VDict d) ->
  truthy (field d "success") = true ->
  dict_get d (lit "receipt") = Some (VStr receipt) ->
  receipt <> [] ->
  Forall is_scalar receipt ->
  exit_status (run w) = 0
  /\ stdout_text (stdout (final (run w))) = Some (receipt ++ [10]).
Proof.
  intros Hp Hs Hd Hj Hsucc Hget Hne Hsc. apply posted_request_of in Hp.
  assert (Hf : field d "receipt" = VStr receipt) by (unfold field; now rewrite Hget).
  assert (Hrec : truthy (field d "receipt") = true).
  { rewrite Hf. now apply str_truthy_nonempty. }
  assert (Hw : writable (field d "receipt") = true).
  { apply writable_spec. intros s Es. rewrite Hf in Es. now inversion Es; subst. }
  paths w.
  - rewrite Hsucc, Hrec in *. discriminate.
  - cbn [exit_status final stdout]. rewrite Hf. split; [ reflexivity | ].
    cbn [stdout_text py_str]. now rewrite app_nil_r.
Qed.

Lemma string_receipt_text_witness :
  stdout_text (stdout (final (run (example_world
     (Responded 200 (qlit "{'receipt': 'r-1 ok', 'success': 1}"))))))
  = Some (lit "r-1 ok" ++ [10]).
Proof.
  set (w := example_world (Responded 200 (qlit "{'receipt': 'r-1 ok', 'success': 1}"))).
  destruct (posted (final (run w))) as [ | req [ | ] ] eqn:Ep; try (vm_compute in Ep; discriminate).
  apply (string_receipt_text w req (qlit "{'receipt': 'r-1 ok', 'success': 1}")
           (qlit "{'receipt': 'r-1 ok', 'success': 1}")
           [ (lit "receipt", VStr (lit "r-1 ok")); (lit "success", VInt 1) ]
           (lit "r-1 ok") Ep); try reflexivity.
  - vm_compute. discriminate.
  - repeat constructor; unfold is_scalar; lia.
Defined.

(** ** Encoding and decoding *)

(** X21: text without surrogates has a UTF-8 form, and decoding that form
    gives the text back, strictly as well as with replacement: the body the
    script sends can be read by its receiver, and a well-formed body of an
    error response is shown unchanged. *)
Theorem utf8_round_trip (s : pystr) :
  Forall is_scalar s ->
  exists b,
    utf8_encode s = Some b
    /\ utf8_decode Strict b = Some s
    /\ utf8_decode Replace b = Some s.
Proof.
  intros Hs. destruct (utf8_encode_scalar s Hs) as [ b Hb ].
  exists b. split; [ exact Hb | ].
  pose proof (utf8_decode_encode s b Hb) as Hd.
  split; [ exact Hd | ]. now apply utf8_decode_strict_replace.
Qed.

Lemma utf8_round_trip_witness :
  exists b, utf8_encode [0x24; 0xE9; 0x20AC; 0x1F600] = Some b
            /\ utf8_decode Strict b = Some [0x24; 0xE9; 0x20AC; 0x1F600].
Proof.
  destruct (utf8_round_trip [0x24; 0xE9; 0x20AC; 0x1F600]) as (b & He & Hd & _).
  - repeat constructor; unfold is_scalar; lia.
  - exists b. split; assumption.
Defined.
